(** * Synthetic SVG data generation pipeline: model and verified properties

    Shallow embedding of [1-generate-synthetic-data.ts] (stage 1: the
    idea -> SVG generation loop with bounded retries, streamed accumulation,
    validation and persistence) and of
    [2-convert-svg-folder-to-gpt-4o-jsonl.ts] (stage 2: the conversion of
    the folder into a file of JSON lines).

    Conventions.
    - A JavaScript string is a [string]; each [ascii] stands for one UTF-16
      code unit in the range U+0000..U+00FF.
    - A JavaScript [number] holding a count, an index or a delay is a [Z].
    - [null]/[undefined] are [None].
    - The model collaborator ([portkey.chat.completions.create]) is an
      oracle indexed by the number of calls already made during the run.
    - Effects (collaborator calls, timer suspensions, file system updates)
      are threaded through an explicit [World]; [console.log] output is not
      part of the model.
    - The file system is a set of directories and a map from paths to file
      contents; paths are relative and already normalised, like the
      program's [svgs].  An [fs] operation throws when the state of the
      file system forbids it (missing parent directory, a directory where a
      file is expected, a missing file) or when the environment makes it
      fail for a reason outside this state (permissions, name length,
      device): an oracle, a function of the world and of the operation.
    - A sequence of statements either completes normally or is left by an
      exception ([Completion]); the world at that point is kept.
    - A streamed response is a finite list of items; a stream that never
      ends is outside the model. *)

From Stdlib Require Import ZArith String Ascii List Bool Lia.
From stdpp Require Import gmap strings sorting.
From Equations Require Import Equations.
Import ListNotations.

Local Open Scope string_scope.
Local Open Scope Z_scope.

(** ** JavaScript string primitives used by the program *)

Module JsString.

Definition code (c : ascii) : N := N_of_ascii c.

Definition in_range (lo hi : N) (c : ascii) : bool :=
  ((lo <=? code c) && (code c <=? hi))%N.

(** ECMAScript WhiteSpace and LineTerminator code points below U+0100:
    TAB, LF, VT, FF, CR, SPACE and NO-BREAK SPACE. *)
Definition is_whitespace (c : ascii) : bool :=
  in_range 9 13 c || (code c =? 32)%N || (code c =? 160)%N.

Definition is_empty (s : string) : bool :=
  match s with EmptyString => true | String _ _ => false end.

(** [String.prototype.trimStart]. *)
Fixpoint trimStart (s : string) : string :=
  match s with
  | EmptyString => EmptyString
  | String c r => if is_whitespace c then trimStart r else s
  end.

(** [String.prototype.trimEnd]. *)
Fixpoint trimEnd (s : string) : string :=
  match s with
  | EmptyString => EmptyString
  | String c r =>
      let r' := trimEnd r in
      if is_whitespace c && is_empty r' then EmptyString else String c r'
  end.

(** [String.prototype.trim]. *)
Definition trim (s : string) : string := trimEnd (trimStart s).

(** [s.startsWith(p)]. *)
Fixpoint startsWith (p s : string) : bool :=
  match p with
  | EmptyString => true
  | String a p' =>
      match s with
      | EmptyString => false
      | String b s' => if Ascii.eqb a b then startsWith p' s' else false
      end
  end.

(** Code-unit-wise rewriting, the effect of a global single-character
    regular expression replacement and of case mapping. *)
Fixpoint map_chars (f : ascii -> ascii) (s : string) : string :=
  match s with
  | EmptyString => EmptyString
  | String c r => String (f c) (map_chars f r)
  end.

Fixpoint all_chars (p : ascii -> bool) (s : string) : bool :=
  match s with
  | EmptyString => true
  | String c r => p c && all_chars p r
  end.

Definition is_digit (c : ascii) : bool := in_range 48 57 c.
Definition is_upper (c : ascii) : bool := in_range 65 90 c.
Definition is_lower (c : ascii) : bool := in_range 97 122 c.

(** Membership in the character class [[a-z0-9]] under the [i] flag
    (without the [u] flag): exactly the ASCII letters and digits. *)
Definition is_alnum_i (c : ascii) : bool :=
  is_lower c || is_upper c || is_digit c.

(** Code units below U+0100 changed by [toLowerCase]: A-Z and the
    Latin-1 capitals U+00C0..U+00DE except the multiplication sign. *)
Definition has_lowercase (c : ascii) : bool :=
  is_upper c || (in_range 192 222 c && negb (code c =? 215)%N).

Definition lower_char (c : ascii) : ascii :=
  if has_lowercase c then ascii_of_N (code c + 32) else c.

(** [String.prototype.toLowerCase]. *)
Definition toLowerCase (s : string) : string := map_chars lower_char s.

(** [s.replace(/[^a-z0-9]/gi, r)] for a one-character replacement [r]:
    every code unit outside the class is replaced on its own. *)
Definition replace_non_alnum (r : ascii) (s : string) : string :=
  map_chars (fun c => if is_alnum_i c then c else r) s.

(** [s.replace(/_/g, ' ')]. *)
Definition replace_underscores (s : string) : string :=
  map_chars (fun c => if Ascii.eqb c "_" then " "%char else c) s.

(** JavaScript truthiness of a [string | null] value. *)
Definition truthy (v : option string) : bool :=
  match v with
  | Some s => negb (is_empty s)
  | None => false
  end.

End JsString.

(** ** Node's [path] helpers, on directory entry names

    The program only joins a folder name with a file name that contains no
    separator, and only takes the base name of a directory entry. *)

Module NodePath.

(** [path.join(dir, name)] for an already normalised relative [dir] and a
    separator-free [name]. *)
Definition join (dir name : string) : string := dir ++ "/" ++ name.

(** The directory part of a path: what precedes its last separator, or
    [None] for a bare name, which lives in the working directory. *)
Fixpoint parent (path : string) : option string :=
  match path with
  | EmptyString => None
  | String c r =>
      match parent r with
      | Some d => Some (String c d)
      | None => if Ascii.eqb c "/" then Some EmptyString else None
      end
  end.

(** [strip_prefix p s] is [Some r] when [s = p ++ r]. *)
Fixpoint strip_prefix (p s : string) : option string :=
  match p with
  | EmptyString => Some s
  | String a p' =>
      match s with
      | EmptyString => None
      | String b s' => if Ascii.eqb a b then strip_prefix p' s' else None
      end
  end.

(** [strip_suffix ext s] is [Some p] when [s = p ++ ext]. *)
Fixpoint strip_suffix (ext s : string) : option string :=
  if String.eqb s ext then Some EmptyString
  else match s with
       | EmptyString => None
       | String c r =>
           match strip_suffix ext r with
           | Some p => Some (String c p)
           | None => None
           end
       end.

(** [path.basename(file, ext)] for a separator-free [file]: the suffix
    [ext] is removed when present (a file named exactly [ext] yields the
    empty string). *)
Definition basename (file ext : string) : string :=
  if JsString.is_empty ext then file
  else match strip_suffix ext file with
       | Some p => p
       | None => file
       end.

End NodePath.

(** ** Configuration (interface [Config]) *)

Record Config := {
  outputCount : Z;
  outputFolder : string;
  maxRetries : Z;
  retryDelay : Z;
  maxTokens : Z;
  generationDelay : Z
}.

(** The configuration object of the program. *)
Definition config : Config := {|
  outputCount := 10;
  outputFolder := "svgs";
  maxRetries := 3;
  retryDelay := 3000;
  maxTokens := 3000;
  generationDelay := 2000
|}.

(** ** Responses of the model collaborator *)

(** Non-streamed response: [{ choices?: [{ message?: { content?: string } }] }]. *)
Record Message := { content : option string }.
Record Choice := { message : option Message }.
Record ChatCompletion := { choices : option (list Choice) }.

(** Streamed response: a sequence of chunks
    [{ choices: [{ finish_reason, delta?: { content? } }] }]. *)
Record Delta := { delta_content : option string }.
Record ChunkChoice := { finish_reason : option string; delta : option Delta }.
Record Chunk := { chunk_choices : list ChunkChoice }.

(** One step of the asynchronous iteration over a streamed response: the
    next chunk, or an exception raised by the collaborator mid-stream.  The
    end of the list is the end of the stream. *)
Inductive StreamItem :=
| Yield (c : Chunk)
| Raise.

(** The value returned by [generateSVGWithGPT4]. *)
Record SvgResult := { description : string; svg : string }.

(** ** The world: collaborator calls, timers and the file system *)

Inductive Event :=
| EvCreate (stream : bool)            (* portkey.chat.completions.create *)
| EvSleep (ms : Z)                    (* await new Promise(r => setTimeout(r, ms)) *)
| EvMkdir (path : string)             (* fs.mkdirSync *)
| EvWriteFile (path data : string).   (* fs.writeFileSync *)

Record World := {
  calls : nat;                        (* collaborator calls made so far *)
  trace : list Event;                 (* effects, oldest first *)
  dirs : gset string;                 (* existing directories *)
  files : gmap string string          (* existing files and their content *)
}.

Definition initial_world : World :=
  {| calls := 0; trace := []; dirs := ∅; files := ∅ |}.

Definition emit (e : Event) (w : World) : World :=
  {| calls := calls w; trace := trace w ++ [e]; dirs := dirs w; files := files w |}.

(** The collaborator is called once, with the given [stream] flag. *)
Definition call (stream : bool) (w : World) : World :=
  {| calls := S (calls w); trace := trace w ++ [EvCreate stream];
     dirs := dirs w; files := files w |}.

Definition sleep (ms : Z) (w : World) : World := emit (EvSleep ms) w.

Definition existsSync (path : string) (w : World) : bool :=
  bool_decide (path ∈ dirs w) || bool_decide (is_Some (files w !! path)).

(** How a sequence of statements ends: control reaches its end, or an
    exception leaves it. *)
Inductive Completion :=
| Normal
| Abrupt.

(** The file system operations of the two programs. *)
Inductive FsOp :=
| OpMkdir (path : string)             (* fs.mkdirSync *)
| OpWrite (path data : string)        (* fs.writeFileSync *)
| OpRead (path : string)              (* fs.readFileSync *)
| OpReaddir (path : string).          (* fs.readdirSync *)

(** The directory that is to hold [path] exists: the working directory
    for a bare name, the root, or a known directory. *)
Definition parent_exists (path : string) (w : World) : bool :=
  match NodePath.parent path with
  | None => true
  | Some d => JsString.is_empty d || bool_decide (d ∈ dirs w)
  end.

(** The effect of a successful [fs.mkdirSync]. *)
Definition make_dir (path : string) (w : World) : World :=
  {| calls := calls w; trace := trace w ++ [EvMkdir path];
     dirs := {[ path ]} ∪ dirs w; files := files w |}.

(** The effect of a successful [fs.writeFileSync]: writing replaces any
    previous content, the later write wins. *)
Definition store (path data : string) (w : World) : World :=
  {| calls := calls w; trace := trace w ++ [EvWriteFile path data];
     dirs := dirs w; files := <[ path := data ]> (files w) |}.

(** [fs.mkdirSync(path)] succeeds when the name is not empty, nothing
    exists under it, its parent exists and the environment does not make
    it fail. *)
Definition mkdir_ok (fault : World -> FsOp -> bool) (path : string)
    (w : World) : bool :=
  negb (JsString.is_empty path) && negb (existsSync path w)
  && parent_exists path w && negb (fault w (OpMkdir path)).

(** [fs.writeFileSync(path, data)] succeeds when the name is not empty, its
    parent exists, [path] is not a directory and the environment does not
    make it fail. *)
Definition write_ok (fault : World -> FsOp -> bool) (path data : string)
    (w : World) : bool :=
  negb (JsString.is_empty path) && parent_exists path w
  && negb (bool_decide (path ∈ dirs w)) && negb (fault w (OpWrite path data)).

(** [fs.mkdirSync(path)]: on failure it throws and changes nothing. *)
Definition mkdirSync (fault : World -> FsOp -> bool) (path : string)
    (w : World) : Completion * World :=
  if mkdir_ok fault path w then (Normal, make_dir path w) else (Abrupt, w).

(** [fs.writeFileSync(path, data)]: on failure it throws and changes
    nothing. *)
Definition writeFileSync (fault : World -> FsOp -> bool) (path data : string)
    (w : World) : Completion * World :=
  if write_ok fault path data w then (Normal, store path data w)
  else (Abrupt, w).

(** ** Pure functions of stage 1 *)

(** [sanitizeFilename]: [filename.replace(/[^a-z0-9]/gi, '_').toLowerCase()]. *)
Definition sanitizeFilename (filename : string) : string :=
  JsString.toLowerCase (JsString.replace_non_alnum "_" filename).

(** [validateSVG]: [data.svg.trim().startsWith('<svg')]. *)
Definition validateSVG (data : SvgResult) : bool :=
  JsString.startsWith "<svg" (JsString.trim (svg data)).

(** [chatCompletion.choices?.[0]?.message?.content?.trim() ?? '']. *)
Definition newIdea_of (chatCompletion : ChatCompletion) : string :=
  match choices chatCompletion with
  | Some (c :: _) =>
      match message c with
      | Some m =>
          match content m with
          | Some s => JsString.trim s
          | None => ""
          end
      | None => ""
      end
  | Some [] => ""
  | None => ""
  end.

(** ** The stream accumulator (the [for await] loop of [generateSVGWithGPT4]) *)

Definition is_finished (c : ChunkChoice) : bool :=
  match finish_reason c with
  | Some r => String.eqb r "stop" || String.eqb r "length"
  | None => false
  end.

(** [chunk.choices[0].delta?.content], when truthy. *)
Definition delta_text (c : ChunkChoice) : option string :=
  match delta c with
  | Some d =>
      match delta_content d with
      | Some s => if JsString.is_empty s then None else Some s
      | None => None
      end
  | None => None
  end.

(** [accumulate acc items] runs the loop from the accumulated string [acc].
    It returns the final accumulated string, or [None] when an exception
    interrupts the loop (raised by the stream, or by reading
    [chunk.choices[0]] of a chunk without choices), together with the
    items that were never pulled from the stream. *)
Fixpoint accumulate (accumulatedResponse : string) (items : list StreamItem)
  : option string * list StreamItem :=
  match items with
  | [] => (Some accumulatedResponse, [])
  | Raise :: rest => (None, rest)
  | Yield chunk :: rest =>
      match chunk_choices chunk with
      | [] => (None, rest)
      | c0 :: _ =>
          if is_finished c0 then (Some accumulatedResponse, rest)
          else match delta_text c0 with
               | Some s => accumulate (accumulatedResponse ++ s) rest
               | None => accumulate accumulatedResponse rest
               end
      end
  end.

(** ** Stage 1: retry-wrapped calls and the generation loop *)

Section Pipeline.

(** The configuration in force. *)
Variable cfg : Config.

(** The model collaborator.  [createCompletion n usedPrompts] is the
    outcome of a non-streamed request issued as call number [n] of the
    run, [createStream n description] that of a streamed request; [None]
    means that the call throws. *)
Variable createCompletion : nat -> list string -> option ChatCompletion.
Variable createStream : nat -> string -> option (list StreamItem).

(** The environment of the file system: [fsFault w op] tells whether [op],
    attempted in world [w], fails for a reason outside the modelled state. *)
Variable fsFault : World -> FsOp -> bool.

(** The [for (attempt = 1; attempt <= maxRetries; attempt++) try/catch]
    loop, which the source writes out twice with different [try] blocks.
    [tryBlock w] performs one attempt: [Some r] is the value returned from
    inside [try], [None] an exception reaching [catch]. *)
Equations? retry_from {A : Type} (tryBlock : World -> option A * World)
    (attempt : Z) (w : World) : option A * World
    by wf (Z.to_nat (maxRetries cfg + 1 - attempt)) lt :=
  retry_from tryBlock attempt w with Z_le_gt_dec attempt (maxRetries cfg) := {
    | left _ =>
        match tryBlock w with
        | (Some r, w1) => (Some r, w1)
        | (None, w1) =>
            retry_from tryBlock (attempt + 1)
              (if attempt <? maxRetries cfg
               then sleep (retryDelay cfg) w1 else w1)
        end
    | right _ => (None, w) }.
Proof. lia. Qed.

(** The [try] block of [generateNewIdea]. *)
Definition try_generateNewIdea (usedPrompts : list string) (w : World)
  : option string * World :=
  match createCompletion (calls w) usedPrompts with
  | Some chatCompletion => (Some (newIdea_of chatCompletion), call false w)
  | None => (None, call false w)
  end.

(** [generateNewIdea]: [Some idea] or [None] for [null]. *)
Definition generateNewIdea (usedPrompts : list string) (w : World)
  : option string * World :=
  retry_from (try_generateNewIdea usedPrompts) 1 w.

(** The [try] block of [generateSVGWithGPT4]: the accumulated string is
    declared inside the block and starts empty in each attempt. *)
Definition try_generateSVG (description : string) (w : World)
  : option SvgResult * World :=
  match createStream (calls w) description with
  | Some chatCompletion =>
      match fst (accumulate "" chatCompletion) with
      | Some accumulatedResponse =>
          (Some {| description := description;
                   svg := JsString.trim accumulatedResponse |},
           call true w)
      | None => (None, call true w)
      end
  | None => (None, call true w)
  end.

(** [generateSVGWithGPT4]. *)
Definition generateSVGWithGPT4 (description : string) (w : World)
  : option SvgResult * World :=
  retry_from (try_generateSVG description) 1 w.

(** The file written for an accepted idea. *)
Definition svg_path (newIdea : string) : string :=
  NodePath.join (outputFolder cfg) (sanitizeFilename newIdea ++ ".svg").

(** One execution of the body of the main loop, for loop index [i].  The
    result tells whether control reaches the increment [i++] (by [continue]
    or by falling through) or an exception leaves the body, which only
    [fs.writeFileSync] can cause, and gives the state of [usedPrompts] and
    of the world at that point. *)
Definition iteration (i : Z) (usedPrompts : list string) (w : World)
  : Completion * (list string * World) :=
  let '(newIdea, w1) := generateNewIdea usedPrompts w in
  match newIdea with
  | None => (Normal, (usedPrompts, w1))
  | Some idea =>
      if JsString.is_empty idea then (Normal, (usedPrompts, w1))
      else
        let usedPrompts' := (usedPrompts ++ [idea])%list in
        let '(result, w2) := generateSVGWithGPT4 idea w1 in
        let '(saved, w3) :=
          match result with
          | Some r =>
              if validateSVG r
              then writeFileSync fsFault (svg_path idea) (svg r) w2
              else (Normal, w2)
          | None => (Normal, w2)
          end in
        match saved with
        | Abrupt => (Abrupt, (usedPrompts', w3))
        | Normal =>
            let w4 :=
              if i <? outputCount cfg - 1
              then sleep (generationDelay cfg) w3 else w3 in
            (Normal, (usedPrompts', w4))
        end
  end.

(** The main loop [for (let i = 0; i < outputCount; i++)], entered with
    loop index [i]: an exception that leaves the body leaves the loop. *)
Equations? loop_from (i : Z) (s : list string * World)
    : Completion * (list string * World)
    by wf (Z.to_nat (outputCount cfg - i)) lt :=
  loop_from i s with Z_lt_ge_dec i (outputCount cfg) := {
    | left _ =>
        match iteration i (fst s) (snd s) with
        | (Normal, s') => loop_from (i + 1) s'
        | (Abrupt, s') => (Abrupt, s')
        end
    | right _ => (Normal, s) }.
Proof. lia. Qed.

(** The folder check at the start of [generateAndSaveSVGs]. *)
Definition ensure_folder (w : World) : Completion * World :=
  if existsSync (outputFolder cfg) w then (Normal, w)
  else mkdirSync fsFault (outputFolder cfg) w.

(** [generateAndSaveSVGs]: how the call ends (a rejected promise is
    [Abrupt]) and the world it leaves. *)
Definition generateAndSaveSVGs (w : World) : Completion * World :=
  match ensure_folder w with
  | (Abrupt, w0) => (Abrupt, w0)
  | (Normal, w0) =>
      let r := loop_from 0 ([], w0) in
      (fst r, snd (snd r))
  end.

End Pipeline.

(** ** Stage 2: the description recovered from a file name *)

(** The name, inside the output folder, of the file stage 1 writes for an
    idea (the last component of [svg_path]). *)
Definition svg_entry_name (newIdea : string) : string :=
  sanitizeFilename newIdea ++ ".svg".

(** [path.basename(file, '.svg').replace(/_/g, ' ')] in [generateJSONL]. *)
Definition description_of_file (file : string) : string :=
  JsString.replace_underscores (NodePath.basename file ".svg").

(** ** Character-level views of the file name functions *)

(** What [sanitizeFilename] does to one code unit. *)
Definition sanitize_char (c : ascii) : ascii :=
  if JsString.is_alnum_i c then JsString.lower_char c else "_"%char.

(** What sanitising and then deriving the description does to one code
    unit. *)
Definition describe_char (c : ascii) : ascii :=
  if JsString.is_alnum_i c then JsString.lower_char c else " "%char.

(** Lowercasing of the ASCII letters only. *)
Definition lower_ascii_letter (c : ascii) : ascii :=
  if JsString.is_upper c then JsString.lower_char c else c.

(** Lowercase ASCII letters, digits and the underscore. *)
Definition is_filename_char (c : ascii) : bool :=
  JsString.is_lower c || JsString.is_digit c || Ascii.eqb c "_".

(** Lowercase ASCII letters, digits and the space. *)
Definition survives_roundtrip (c : ascii) : bool :=
  JsString.is_lower c || JsString.is_digit c || Ascii.eqb c " ".

(** ** Observations on traces and worlds *)

Definition is_create (stream : bool) (e : Event) : bool :=
  match e with
  | EvCreate b => Bool.eqb b stream
  | _ => false
  end.

Definition is_sleep (ms : Z) (e : Event) : bool :=
  match e with
  | EvSleep d => d =? ms
  | _ => false
  end.

(** Number of collaborator invocations with the given [stream] flag. *)
Definition count_creates (stream : bool) (t : list Event) : nat :=
  length (List.filter (is_create stream) t).

(** Number of suspensions of exactly [ms] milliseconds. *)
Definition count_sleeps (ms : Z) (t : list Event) : nat :=
  length (List.filter (is_sleep ms) t).

(** The files written, in order, as (path, content) pairs. *)
Fixpoint written (t : list Event) : list (string * string) :=
  match t with
  | [] => []
  | EvWriteFile p d :: t' => (p, d) :: written t'
  | _ :: t' => written t'
  end.

(** The world after [k] failed attempts, each followed by the retry delay. *)
Fixpoint failed_attempts (stream : bool) (delay : Z) (k : nat) (w : World)
  : World :=
  match k with
  | O => w
  | S k' => failed_attempts stream delay k' (sleep delay (call stream w))
  end.

(** The world after [n] attempts that all failed: the last one is not
    followed by a delay. *)
Definition exhausted (stream : bool) (delay : Z) (n : nat) (w : World)
  : World :=
  match n with
  | O => w
  | S m => call stream (failed_attempts stream delay m w)
  end.

(** The events of [k] failed attempts, each followed by the retry delay. *)
Fixpoint retry_events (stream : bool) (delay : Z) (k : nat) : list Event :=
  match k with
  | O => []
  | S k' => EvCreate stream :: EvSleep delay :: retry_events stream delay k'
  end.

(** Outcome of the [try] block of [generateNewIdea] as call number [n]. *)
Definition idea_outcome
    (createCompletion : nat -> list string -> option ChatCompletion)
    (usedPrompts : list string) (n : nat) : option string :=
  option_map newIdea_of (createCompletion n usedPrompts).

(** Outcome of the [try] block of [generateSVGWithGPT4] as call number [n]. *)
Definition svg_outcome
    (createStream : nat -> string -> option (list StreamItem))
    (description : string) (n : nat) : option SvgResult :=
  match createStream n description with
  | Some items =>
      option_map
        (fun acc => {| description := description; svg := JsString.trim acc |})
        (fst (accumulate "" items))
  | None => None
  end.

(** A chunk that only carries text, and a chunk that only signals the end. *)
Definition text_chunk (s : string) : Chunk :=
  {| chunk_choices :=
       [ {| finish_reason := None;
            delta := Some {| delta_content := Some s |} |} ] |}.

Definition finish_chunk (reason : string) : Chunk :=
  {| chunk_choices := [ {| finish_reason := Some reason; delta := None |} ] |}.

(** The first choice of a chunk. *)
Definition first_choice (c : Chunk) : option ChunkChoice :=
  head (chunk_choices c).

(** A chunk the loop passes over: it has a first choice, which does not
    signal the end. *)
Definition continues (c : Chunk) : bool :=
  match first_choice c with
  | Some c0 => negb (is_finished c0)
  | None => false
  end.

(** A chunk that ends the loop. *)
Definition finishes (c : Chunk) : bool :=
  match first_choice c with
  | Some c0 => is_finished c0
  | None => false
  end.

(** The text a chunk contributes (nothing when it has no content). *)
Definition chunk_text (c : Chunk) : string :=
  match first_choice c with
  | Some c0 =>
      match delta c0 with
      | Some d =>
          match delta_content d with
          | Some s => s
          | None => ""
          end
      | None => ""
      end
  | None => ""
  end.

(** Concatenation, in order, of the text of a list of chunks. *)
Fixpoint concat_text (cs : list Chunk) : string :=
  match cs with
  | [] => ""
  | c :: cs' => chunk_text c ++ concat_text cs'
  end.

(** The indices visited by a loop [for (i = 0; i < n; i++)]. *)
Definition indices (n : Z) : list Z := map Z.of_nat (seq 0 (Z.to_nat n)).

(** Running the loop body once for each index of a list, in order, up to
    the first exception. *)
Fixpoint run_iterations (cfg : Config)
    (createCompletion : nat -> list string -> option ChatCompletion)
    (createStream : nat -> string -> option (list StreamItem))
    (fsFault : World -> FsOp -> bool)
    (idxs : list Z) (s : list string * World)
  : Completion * (list string * World) :=
  match idxs with
  | [] => (Normal, s)
  | i :: rest =>
      match iteration cfg createCompletion createStream fsFault i
              (fst s) (snd s) with
      | (Normal, s') =>
          run_iterations cfg createCompletion createStream fsFault rest s'
      | (Abrupt, s') => (Abrupt, s')
      end
  end.


(** The pacing pause at the end of the loop body. *)
Definition pause_after (cfg : Config) (i : Z) (w : World) : World :=
  if i <? outputCount cfg - 1 then sleep (generationDelay cfg) w else w.

(** The four ways through the loop body. *)
Inductive iteration_outcome (cfg : Config)
    (cc : nat -> list string -> option ChatCompletion)
    (cs : nat -> string -> option (list StreamItem))
    (fault : World -> FsOp -> bool)
    (i : Z) (usedPrompts : list string) (w : World)
  : Completion * (list string * World) -> Prop :=
| OutcomeNoIdea newIdea w1 :
    generateNewIdea cfg cc usedPrompts w = (newIdea, w1) ->
    JsString.truthy newIdea = false ->
    iteration_outcome cfg cc cs fault i usedPrompts w
      (Normal, (usedPrompts, w1))
| OutcomeNoArtifact idea w1 result w2 :
    generateNewIdea cfg cc usedPrompts w = (Some idea, w1) ->
    JsString.is_empty idea = false ->
    generateSVGWithGPT4 cfg cs idea w1 = (result, w2) ->
    match result with
    | Some r => validateSVG r = false
    | None => True
    end ->
    iteration_outcome cfg cc cs fault i usedPrompts w
      (Normal, ((usedPrompts ++ [idea])%list, pause_after cfg i w2))
| OutcomeSaved idea w1 r w2 :
    generateNewIdea cfg cc usedPrompts w = (Some idea, w1) ->
    JsString.is_empty idea = false ->
    generateSVGWithGPT4 cfg cs idea w1 = (Some r, w2) ->
    validateSVG r = true ->
    write_ok fault (svg_path cfg idea) (svg r) w2 = true ->
    iteration_outcome cfg cc cs fault i usedPrompts w
      (Normal,
       ((usedPrompts ++ [idea])%list,
        pause_after cfg i (store (svg_path cfg idea) (svg r) w2)))
| OutcomeWriteThrows idea w1 r w2 :
    generateNewIdea cfg cc usedPrompts w = (Some idea, w1) ->
    JsString.is_empty idea = false ->
    generateSVGWithGPT4 cfg cs idea w1 = (Some r, w2) ->
    validateSVG r = true ->
    write_ok fault (svg_path cfg idea) (svg r) w2 = false ->
    iteration_outcome cfg cc cs fault i usedPrompts w
      (Abrupt, ((usedPrompts ++ [idea])%list, w2)).

(** The claim that every iteration but the last ends with a pause of
    [generationDelay], whether or not it produced an idea. *)
Definition pauses_after_every_nonfinal_iteration (cfg : Config)
    (createCompletion : nat -> list string -> option ChatCompletion)
    (createStream : nat -> string -> option (list StreamItem))
    (fsFault : World -> FsOp -> bool) : Prop :=
  forall i usedPrompts w,
    0 <= i < outputCount cfg - 1 ->
    exists t,
      trace (snd (snd (iteration cfg createCompletion createStream fsFault
                         i usedPrompts w)))
      = (t ++ [EvSleep (generationDelay cfg)])%list.



(** ** Sample collaborators and configurations *)

Definition completion_with (s : string) : ChatCompletion :=
  {| choices := Some [ {| message := Some {| content := Some s |} |} ] |}.

(** A collaborator whose calls all throw. *)
Definition failing_completion : nat -> list string -> option ChatCompletion :=
  fun _ _ => None.
Definition failing_stream : nat -> string -> option (list StreamItem) :=
  fun _ _ => None.

(** A collaborator whose first call throws and whose later calls answer. *)
Definition flaky_completion : nat -> list string -> option ChatCompletion :=
  fun n _ => if Nat.eqb n 0 then None else Some (completion_with " A Cat ").

(** A streamed collaborator whose first call breaks mid-stream, after one
    fragment, and whose later calls deliver a complete stream followed by a
    fragment queued after the finish signal. *)
Definition flaky_stream : nat -> string -> option (list StreamItem) :=
  fun n _ =>
    if Nat.eqb n 0 then Some [Yield (text_chunk "<rect"); Raise]
    else Some [Yield (text_chunk "<svg"); Yield (text_chunk " width");
               Yield (finish_chunk "stop"); Yield (text_chunk "</svg>")].


(** An environment in which no file system operation fails by itself. *)
Definition no_fault : World -> FsOp -> bool := fun _ _ => false.

(** A world in which the output folder of the program exists. *)
Definition folder_ready : World :=
  {| calls := 0; trace := []; dirs := {[ "svgs" ]}; files := ∅ |}.


(** A collaborator that answers every non-streamed call without choices. *)
Definition empty_completion : nat -> list string -> option ChatCompletion :=
  fun _ _ => Some {| choices := Some [] |}.

(** Two iterations, a single attempt per call. *)
Definition two_iterations : Config := {|
  outputCount := 2;
  outputFolder := "svgs";
  maxRetries := 1;
  retryDelay := 3000;
  maxTokens := 3000;
  generationDelay := 2000
|}.

(** ** The prompt composer of stage 1 *)

(** Characters that cannot be written inside a string literal here. *)
Definition dquote : ascii := "034"%char.
Definition backslash : ascii := "092"%char.
Definition newline : ascii := "010"%char.

(** [s] between double quotes. *)
Definition in_quotes (s : string) : string :=
  String dquote (s ++ String dquote "").

(** [Array.prototype.join] on an array of strings. *)
Fixpoint join (sep : string) (l : list string) : string :=
  match l with
  | [] => ""
  | [x] => x
  | x :: rest => x ++ sep ++ join sep rest
  end.

Definition shapes : list string :=
  ["circle"; "rectangle"; "triangle"; "ellipse"; "line"; "polygon"; "path"].
Definition colors : list string :=
  ["red"; "blue"; "green"; "yellow"; "purple"; "orange"; "pink"; "teal";
   "brown"; "gray"].
Definition themes : list string :=
  ["nature"; "technology"; "abstract"; "emotions"; "space"; "music"; "food";
   "sports"; "animals"; "weather"].
Definition styles : list string :=
  ["minimalist"; "geometric"; "hand-drawn"; "pixel art"; "art deco"; "cubist";
   "pop art"].

(** [getRandomElement]: [arr[idx]], where [idx] is the value of
    [Math.floor(Math.random() * arr.length)]; an index outside the array
    reads [undefined]. *)
Definition getRandomElement (arr : list string) (idx : nat) : option string :=
  nth_error arr idx.

(** A [string | undefined] value inside a template literal. *)
Definition interpolate (v : option string) : string :=
  match v with
  | Some s => s
  | None => "undefined"
  end.

(** The four indices drawn by one call of [generateRandomPrompt], in the
    order of the draws. *)
Record Draws := {
  shape_idx : nat;
  color_idx : nat;
  theme_idx : nat;
  style_idx : nat
}.

(** [generateRandomPrompt]. *)
Definition generateRandomPrompt (d : Draws) : string :=
  let shape := getRandomElement shapes (shape_idx d) in
  let color := getRandomElement colors (color_idx d) in
  let theme := getRandomElement themes (theme_idx d) in
  let style := getRandomElement styles (style_idx d) in
  "Create a " ++ interpolate style ++ " SVG image of a " ++ interpolate color
  ++ " " ++ interpolate shape ++ " related to " ++ interpolate theme.

(** [generateIdeaPrompt]. *)
Definition generateIdeaPrompt (d : Draws) (usedPrompts : list string)
  : string :=
  let newPrompt := generateRandomPrompt d in
  "Generate a new, unique idea for a simple SVG image based on this prompt: "
  ++ in_quotes newPrompt ++ "."
  ++ String newline
       ("The idea should be different from these already generated ideas: "
        ++ join ", " usedPrompts ++ "."
        ++ String newline
             ("The idea should be described in a single sentence."
              ++ String newline
                   "Only return the new idea, without any additional explanation.")).

(** [generateSVGPrompt]. *)
Definition generateSVGPrompt (description : string) : string :=
  "Generate SVG code for the following description: "
  ++ in_quotes description ++ "."
  ++ String newline
       ("The SVG should be simple, clean, and use basic shapes."
        ++ String newline
             ("Include appropriate viewBox and size attributes."
              ++ String newline
                   ("Incorporate some randomness in the positioning, sizes, or colors of elements."
                    ++ String newline
                         ("Use no more than 3-5 shapes or paths."
                          ++ String newline
                               "Do not include any explanations, just return the SVG code.")))).

(** [p] occurs in [s] as a contiguous piece. *)
Definition occurs_in (p s : string) : Prop :=
  exists a b, s = (a ++ p ++ b)%string.

(** ** [JSON.stringify] on strings and on the record of stage 2 *)

Module Json.

(** Lowercase hexadecimal digit of a value below 16. *)
Definition hex_digit (n : N) : ascii :=
  if (n <? 10)%N then ascii_of_N (48 + n) else ascii_of_N (87 + n).

(** The JSON escape of one code unit below U+0100: the short escapes for
    backspace, tab, line feed, form feed and carriage return, a backslash
    before the double quote and the backslash, [\u00XX] for the other
    control characters, and the code unit itself otherwise. *)
Definition escape_char (c : ascii) : string :=
  let n := N_of_ascii c in
  if (n =? 8)%N then String backslash "b"
  else if (n =? 9)%N then String backslash "t"
  else if (n =? 10)%N then String backslash "n"
  else if (n =? 12)%N then String backslash "f"
  else if (n =? 13)%N then String backslash "r"
  else if (n =? 34)%N then String backslash (String dquote "")
  else if (n =? 92)%N then String backslash (String backslash "")
  else if (n <? 32)%N then
    String backslash
      (String "u" (String "0" (String "0"
         (String (hex_digit (n / 16)) (String (hex_digit (n mod 16)) "")))))
  else String c "".

Fixpoint escape (s : string) : string :=
  match s with
  | EmptyString => EmptyString
  | String c r => escape_char c ++ escape r
  end.

(** [JSON.stringify(s)] for a string [s]. *)
Definition quote (s : string) : string := in_quotes (escape s).

(** [JSON.stringify({ role: r, content: c })]. *)
Definition message (role content : string) : string :=
  "{" ++ quote "role" ++ ":" ++ quote role ++ ","
  ++ quote "content" ++ ":" ++ quote content ++ "}".

(** Value of a hexadecimal digit. *)
Definition hex_value (c : ascii) : N :=
  let n := N_of_ascii c in
  if (n <? 58)%N then n - 48 else n - 87.

(** Reading back the inside of a JSON string literal. *)
Fixpoint unescape (s : string) : string :=
  match s with
  | EmptyString => EmptyString
  | String c r =>
      if Ascii.eqb c backslash then
        match r with
        | String "u" (String _ (String _ (String h (String l r')))) =>
            String (ascii_of_N (16 * hex_value h + hex_value l)) (unescape r')
        | String e r' =>
            String
              (if Ascii.eqb e "b" then "008"
               else if Ascii.eqb e "t" then "009"
               else if Ascii.eqb e "n" then "010"
               else if Ascii.eqb e "f" then "012"
               else if Ascii.eqb e "r" then "013"
               else e)%char
              (unescape r')
        | EmptyString => EmptyString
        end
      else String c (unescape r)
  end.

End Json.

(** ** Stage 2: [generateJSONL] *)

Definition inputFolder : string := "svgs".
Definition outputFile : string := "fine_tuning_data.jsonl".

Definition stage2_system_prompt : string :=
  "You are an AI assistant specialized in generating SVG code based on descriptions. Provide only the SVG code without any explanations or markdown formatting.".

(** [JSON.stringify({ messages: [system, user, assistant] })] as built in the
    callback of [files.map]. *)
Definition jsonl_record (description svg : string) : string :=
  "{" ++ Json.quote "messages" ++ ":["
  ++ Json.message "system" stage2_system_prompt ++ ","
  ++ Json.message "user" ("Generate an SVG for: " ++ description) ++ ","
  ++ Json.message "assistant" svg ++ "]}".

Definition not_slash (c : ascii) : bool := negb (Ascii.eqb c "/").

(** The name under which [path] is listed in [folder]: [path] is
    [folder/name] for a non-empty [name] without separator. *)
Definition entry_name (folder path : string) : option string :=
  match NodePath.strip_prefix (folder ++ "/") path with
  | Some name =>
      if JsString.is_empty name || negb (JsString.all_chars not_slash name)
      then None else Some name
  | None => None
  end.

(** The entries of a folder, files and directories alike, sorted by the
    code units of their names, the order in which Node lists a directory
    on POSIX systems. *)
Definition folder_entries (folder : string) (w : World) : list string :=
  merge_sort (fun a b => Is_true (String.leb a b))
    (omap (entry_name folder) (elements (dom (files w) ∪ dirs w))).

(** [fs.readdirSync(path)]: [None] when the call throws, because [path] is
    not a directory or the environment makes it fail. *)
Definition readdirSync (fault : World -> FsOp -> bool) (path : string)
    (w : World) : option (list string) :=
  if bool_decide (path ∈ dirs w) && negb (fault w (OpReaddir path))
  then Some (folder_entries path w) else None.

(** [fs.readFileSync(path, 'utf-8')]: [None] when the call throws, because
    there is no such file or the environment makes it fail. *)
Definition readFileSync (fault : World -> FsOp -> bool) (path : string)
    (w : World) : option string :=
  if fault w (OpRead path) then None else files w !! path.

(** The callback of [files.map]: the record for one directory entry;
    [None] when reading the file throws. *)
Definition record_of_file (fault : World -> FsOp -> bool) (w : World)
    (file : string) : option string :=
  let filePath := NodePath.join inputFolder file in
  match readFileSync fault filePath w with
  | Some svg => Some (jsonl_record (description_of_file file) svg)
  | None => None
  end.

(** [files.map(callback)]: the exception of a callback ends the mapping. *)
Fixpoint map_files (fault : World -> FsOp -> bool) (w : World)
    (entries : list string) : option (list string) :=
  match entries with
  | [] => Some []
  | file :: rest =>
      match record_of_file fault w file with
      | Some line =>
          match map_files fault w rest with
          | Some lines => Some (line :: lines)
          | None => None
          end
      | None => None
      end
  end.

(** [generateJSONL]: how the call ends and the world it leaves. *)
Definition generateJSONL (fault : World -> FsOp -> bool) (w : World)
  : Completion * World :=
  match readdirSync fault inputFolder w with
  | Some entries =>
      match map_files fault w entries with
      | Some jsonlData =>
          writeFileSync fault outputFile
            (join (String newline "") jsonlData) w
      | None => (Abrupt, w)
      end
  | None => (Abrupt, w)
  end.

(** Number of occurrences of a code unit in a string. *)
Fixpoint count_char (c : ascii) (s : string) : nat :=
  match s with
  | EmptyString => O
  | String a r => ((if Ascii.eqb a c then 1 else 0) + count_char c r)%nat
  end.

(** ** Further observations on runs *)

(** An idea as the main loop records it: not empty, and trimmed. *)
Definition recorded_idea (idea : string) : Prop :=
  idea <> "" /\ JsString.trim idea = idea.

(** A file as the main loop writes it: named after a recorded idea, with a
    trimmed content that begins with the SVG open tag. *)
Definition valid_artifact_file (cfg : Config) (f : string * string) : Prop :=
  (exists idea, recorded_idea idea /\ fst f = svg_path cfg idea)
  /\ JsString.startsWith "<svg" (snd f) = true
  /\ JsString.trim (snd f) = snd f.

(** The events a retry-wrapped call can leave last. *)
Definition is_pause (e : Event) : bool :=
  match e with
  | EvSleep _ => true
  | _ => false
  end.

(** Relations between the state before and after some iterations, [n] of
    them at most: ideas recorded and files written, collaborator calls,
    time suspended, events added. *)
Definition records_step (cfg : Config) (n : nat)
    (s s' : list string * World) : Prop :=
  exists added new,
    fst s' = (fst s ++ added)%list
    /\ Forall recorded_idea added
    /\ written (trace (snd s')) = (written (trace (snd s)) ++ new)%list
    /\ Forall (valid_artifact_file cfg) new
    /\ (length new <= length added <= n)%nat.

Definition calls_step (cfg : Config) (n : nat)
    (s s' : list string * World) : Prop :=
  (calls (snd s) <= calls (snd s')
   <= calls (snd s) + n * (2 * Z.to_nat (maxRetries cfg)))%nat.

Definition trace_step (s s' : list string * World) : Prop :=
  exists evs, trace (snd s') = (trace (snd s) ++ evs)%list.

(** What a run may do to the file system: directories are kept, and a
    file either is as before or sits at the path of some idea. *)
Definition fs_step (cfg : Config) (w w' : World) : Prop :=
  dirs w' = dirs w
  /\ forall p,
       files w' !! p = files w !! p
       \/ ((exists idea, p = svg_path cfg idea) /\ is_Some (files w' !! p)).

(** A list of events that is empty or ends with something other than a
    pause. *)
Definition ends_active (evs : list Event) : Prop :=
  evs = [] \/ exists pre e, evs = (pre ++ [e])%list /\ is_pause e = false.

(** A code unit that is not a control character. *)
Definition no_control (c : ascii) : bool := (32 <=? N_of_ascii c)%N.

(** A string without line feed. *)
Definition single_line (s : string) : Prop := count_char newline s = O.

(** Total time, in milliseconds, spent suspended. *)
Fixpoint total_sleep (t : list Event) : Z :=
  match t with
  | [] => 0
  | EvSleep ms :: t' => ms + total_sleep t'
  | _ :: t' => total_sleep t'
  end.

Definition sleep_step (bound : Z) (n : nat)
    (s s' : list string * World) : Prop :=
  total_sleep (trace (snd s))
  <= total_sleep (trace (snd s'))
  <= total_sleep (trace (snd s)) + Z.of_nat n * bound.

(** ** More sample data *)

(** The program's configuration with retries switched off. *)
Definition no_attempts : Config := {|
  outputCount := 10;
  outputFolder := "svgs";
  maxRetries := 0;
  retryDelay := 3000;
  maxTokens := 3000;
  generationDelay := 2000
|}.

(** A streamed collaborator whose streams end without a finish signal. *)
Definition unfinished_stream : nat -> string -> option (list StreamItem) :=
  fun _ _ => Some [Yield (text_chunk "<svg>"); Yield (text_chunk "<circle")].

(** A world in which stage 1 has left two artifacts, one of them holding a
    line feed. *)
Definition two_artifacts : World :=
  {| calls := 0; trace := []; dirs := {[ "svgs" ]};
     files := <[ "svgs/a_dog.svg" := "<svg>" ++ String newline "</svg>" ]>
                {[ "svgs/a_cat.svg" := "<svg/>" ]} |}.

(** The world after stage 2 has run on [two_artifacts]. *)
Definition two_artifacts_converted : World :=
  store outputFile
    (join (String newline "")
       [jsonl_record "a cat" "<svg/>";
        jsonl_record "a dog" ("<svg>" ++ String newline "</svg>")])
    two_artifacts.

(** * Verified properties *)

(** ** Traces *)

Lemma count_creates_app stream t1 t2 :
  count_creates stream (t1 ++ t2)
  = (count_creates stream t1 + count_creates stream t2)%nat.
Proof. unfold count_creates. rewrite List.filter_app, List.length_app. reflexivity. Qed.

Lemma count_sleeps_app ms t1 t2 :
  count_sleeps ms (t1 ++ t2)
  = (count_sleeps ms t1 + count_sleeps ms t2)%nat.
Proof. unfold count_sleeps. rewrite List.filter_app, List.length_app. reflexivity. Qed.

Lemma written_app t1 t2 : written (t1 ++ t2) = (written t1 ++ written t2)%list.
Proof.
  induction t1 as [|e t1 IH]; simpl; [reflexivity|].
  destruct e; simpl; rewrite IH; reflexivity.
Qed.

Lemma count_creates_retry_events stream delay k :
  count_creates stream (retry_events stream delay k) = k.
Proof.
  induction k as [|k IH]; [reflexivity|].
  change (retry_events stream delay (S k))
    with ([EvCreate stream; EvSleep delay] ++ retry_events stream delay k)%list.
  rewrite count_creates_app, IH. unfold count_creates. simpl.
  destruct stream; reflexivity.
Qed.

Lemma count_sleeps_retry_events stream delay k :
  count_sleeps delay (retry_events stream delay k) = k.
Proof.
  induction k as [|k IH]; [reflexivity|].
  change (retry_events stream delay (S k))
    with ([EvCreate stream; EvSleep delay] ++ retry_events stream delay k)%list.
  rewrite count_sleeps_app, IH. unfold count_sleeps.
  cbn [List.filter is_sleep]. rewrite Z.eqb_refl. reflexivity.
Qed.


Lemma failed_attempts_trace stream delay k w :
  trace (failed_attempts stream delay k w)
  = (trace w ++ retry_events stream delay k)%list.
Proof.
  revert w. induction k as [|k IH]; intros w; simpl.
  - rewrite app_nil_r. reflexivity.
  - rewrite IH. simpl. rewrite <- !app_assoc. reflexivity.
Qed.

Lemma failed_attempts_calls stream delay k w :
  calls (failed_attempts stream delay k w) = (calls w + k)%nat.
Proof.
  revert w. induction k as [|k IH]; intros w; simpl; [lia|].
  rewrite IH. simpl. lia.
Qed.

Lemma failed_attempts_files stream delay k w :
  files (failed_attempts stream delay k w) = files w
  /\ dirs (failed_attempts stream delay k w) = dirs w.
Proof.
  revert w. induction k as [|k IH]; intros w; simpl; [split; reflexivity|].
  destruct (IH (sleep delay (call stream w))) as [-> ->]. split; reflexivity.
Qed.

(** ** The retry loop *)

Lemma retry_from_step cfg {A} (tryBlock : World -> option A * World)
    attempt w :
  retry_from cfg tryBlock attempt w =
  if attempt <=? maxRetries cfg then
    match tryBlock w with
    | (Some r, w1) => (Some r, w1)
    | (None, w1) =>
        retry_from cfg tryBlock (attempt + 1)
          (if attempt <? maxRetries cfg then sleep (retryDelay cfg) w1 else w1)
    end
  else (None, w).
Proof.
  rewrite retry_from_equation_1.
  destruct (Z_le_gt_dec attempt (maxRetries cfg)); simpl;
    destruct (Z.leb_spec attempt (maxRetries cfg)); try reflexivity; lia.
Qed.

Lemma loop_from_step cfg cc cs fault i s :
  loop_from cfg cc cs fault i s =
  if i <? outputCount cfg
  then match iteration cfg cc cs fault i (fst s) (snd s) with
       | (Normal, s') => loop_from cfg cc cs fault (i + 1) s'
       | (Abrupt, s') => (Abrupt, s')
       end
  else (Normal, s).
Proof.
  rewrite loop_from_equation_1.
  destruct (Z_lt_ge_dec i (outputCount cfg)); simpl;
    destruct (Z.ltb_spec i (outputCount cfg)); try reflexivity; lia.
Qed.

Section Retry.

Variable cfg : Config.
Variable A : Type.
Variable tryBlock : World -> option A * World.
Variable stream : bool.
Variable outcome : nat -> option A.

(** Every attempt calls the collaborator once; its outcome is that of the
    call's position in the run. *)
Hypothesis attempt_shape :
  forall w, tryBlock w = (outcome (calls w), call stream w).

Lemma retry_succeeds_after (k : nat) : forall attempt w r,
  (forall j, (j < k)%nat -> outcome (calls w + j)%nat = None) ->
  outcome (calls w + k)%nat = Some r ->
  attempt + Z.of_nat k <= maxRetries cfg ->
  retry_from cfg tryBlock attempt w
  = (Some r, call stream (failed_attempts stream (retryDelay cfg) k w)).
Proof.
  induction k as [|k IH]; intros attempt w r Hfail Hok Hle;
    rewrite retry_from_step, attempt_shape.
  - rewrite Nat.add_0_r in Hok. rewrite Hok.
    destruct (Z.leb_spec attempt (maxRetries cfg)); [reflexivity | lia].
  - rewrite <- (Nat.add_0_r (calls w)) at 1.
    rewrite (Hfail O) by lia.
    destruct (Z.leb_spec attempt (maxRetries cfg)); [| lia].
    destruct (Z.ltb_spec attempt (maxRetries cfg)); [| lia].
    rewrite (IH (attempt + 1) (sleep (retryDelay cfg) (call stream w)) r).
    + reflexivity.
    + intros j Hj. simpl. rewrite <- Nat.add_succ_r. apply Hfail. lia.
    + simpl. rewrite <- Nat.add_succ_r. exact Hok.
    + lia.
Qed.

Lemma retry_exhausts (n : nat) : forall attempt w,
  Z.to_nat (maxRetries cfg + 1 - attempt) = n ->
  (forall j, (j < n)%nat -> outcome (calls w + j)%nat = None) ->
  retry_from cfg tryBlock attempt w
  = (None, exhausted stream (retryDelay cfg) n w).
Proof.
  induction n as [|n IH]; intros attempt w Hn Hfail;
    rewrite retry_from_step.
  - destruct (Z.leb_spec attempt (maxRetries cfg)); [lia | reflexivity].
  - rewrite attempt_shape.
    rewrite <- (Nat.add_0_r (calls w)) at 1.
    rewrite (Hfail O) by lia.
    destruct (Z.leb_spec attempt (maxRetries cfg)); [| lia].
    destruct (Z.ltb_spec attempt (maxRetries cfg)).
    + rewrite (IH (attempt + 1) (sleep (retryDelay cfg) (call stream w)));
        [| lia |].
      * destruct n as [|m]; [lia | reflexivity].
      * intros j Hj. simpl. rewrite <- Nat.add_succ_r. apply Hfail. lia.
    + rewrite (IH (attempt + 1) (call stream w)); [| lia |].
      * assert (n = O) by lia. subst n. reflexivity.
      * intros j Hj. lia.
Qed.

(** Whatever the collaborator does, the loop returns, and it touches
    neither the file system nor the files already written. *)
Lemma retry_from_preserves (n : nat) : forall attempt w,
  Z.to_nat (maxRetries cfg + 1 - attempt) = n ->
  let w' := snd (retry_from cfg tryBlock attempt w) in
  (exists evs, trace w' = (trace w ++ evs)%list /\ written evs = [])
  /\ files w' = files w /\ dirs w' = dirs w.
Proof.
  induction n as [|n IH]; intros attempt w Hn; cbv zeta;
    rewrite retry_from_step.
  - destruct (Z.leb_spec attempt (maxRetries cfg)); [lia |]. simpl.
    split; [exists []; rewrite app_nil_r; split; reflexivity |].
    split; reflexivity.
  - rewrite attempt_shape.
    destruct (Z.leb_spec attempt (maxRetries cfg)); [| lia].
    destruct (outcome (calls w)) as [r|]; simpl.
    + split; [exists [EvCreate stream]; split; reflexivity |].
      split; reflexivity.
    + destruct (Z.ltb_spec attempt (maxRetries cfg)).
      * destruct (IH (attempt + 1) (sleep (retryDelay cfg) (call stream w)))
          as [[evs [Ht Hw]] [Hf Hd]]; [lia |].
        split; [| split; [rewrite Hf | rewrite Hd]; reflexivity].
        exists ([EvCreate stream; EvSleep (retryDelay cfg)] ++ evs)%list.
        rewrite Ht. simpl. rewrite <- !app_assoc. split; [reflexivity|].
        exact Hw.
      * destruct (IH (attempt + 1) (call stream w))
          as [[evs [Ht Hw]] [Hf Hd]]; [lia |].
        split; [| split; [rewrite Hf | rewrite Hd]; reflexivity].
        exists ([EvCreate stream] ++ evs)%list.
        rewrite Ht. simpl. rewrite <- !app_assoc. split; [reflexivity|].
        exact Hw.
Qed.

End Retry.

Lemma try_generateNewIdea_shape cc usedPrompts w :
  try_generateNewIdea cc usedPrompts w
  = (idea_outcome cc usedPrompts (calls w), call false w).
Proof.
  unfold try_generateNewIdea, idea_outcome.
  destruct (cc (calls w) usedPrompts); reflexivity.
Qed.

Lemma try_generateSVG_shape cs description w :
  try_generateSVG cs description w
  = (svg_outcome cs description (calls w), call true w).
Proof.
  unfold try_generateSVG, svg_outcome.
  destruct (cs (calls w) description) as [items|]; [| reflexivity].
  destruct (fst (accumulate "" items)); reflexivity.
Qed.



Lemma generateNewIdea_preserves cfg cc usedPrompts w :
  let w' := snd (generateNewIdea cfg cc usedPrompts w) in
  (exists evs, trace w' = (trace w ++ evs)%list /\ written evs = [])
  /\ files w' = files w /\ dirs w' = dirs w.
Proof.
  unfold generateNewIdea.
  eapply retry_from_preserves;
    [apply try_generateNewIdea_shape | reflexivity].
Qed.

Lemma generateSVGWithGPT4_preserves cfg cs description w :
  let w' := snd (generateSVGWithGPT4 cfg cs description w) in
  (exists evs, trace w' = (trace w ++ evs)%list /\ written evs = [])
  /\ files w' = files w /\ dirs w' = dirs w.
Proof.
  unfold generateSVGWithGPT4.
  eapply retry_from_preserves;
    [apply try_generateSVG_shape | reflexivity].
Qed.

(** ** Retry-wrapped calls (claims C2, C3) *)

(** C2. When the operation fails exactly [k] times and then succeeds, and
    [maxRetries >= k + 1], both retry-wrapped calls return the success
    result after [k + 1] invocations of the collaborator; the events they
    add are [k] times (one invocation, one suspension of [retryDelay])
    followed by one last invocation, that is [k + 1] invocations and [k]
    suspensions, each between two attempts. *)
Theorem retry_succeeds_after_k_failures :
  forall cfg cc cs usedPrompts description w (k : nat) completion result,
    Z.of_nat k + 1 <= maxRetries cfg ->
    (forall j, (j < k)%nat -> cc (calls w + j)%nat usedPrompts = None) ->
    cc (calls w + k)%nat usedPrompts = Some completion ->
    (forall j, (j < k)%nat ->
       svg_outcome cs description (calls w + j) = None) ->
    svg_outcome cs description (calls w + k) = Some result ->
    let attempts b :=
      (retry_events b (retryDelay cfg) k ++ [EvCreate b])%list in
    let ri := generateNewIdea cfg cc usedPrompts w in
    let rs := generateSVGWithGPT4 cfg cs description w in
    (fst ri = Some (newIdea_of completion)
     /\ calls (snd ri) = (calls w + (k + 1))%nat
     /\ trace (snd ri) = (trace w ++ attempts false)%list)
    /\ (fst rs = Some result
        /\ calls (snd rs) = (calls w + (k + 1))%nat
        /\ trace (snd rs) = (trace w ++ attempts true)%list)
    /\ (forall b, count_creates b (attempts b) = (k + 1)%nat
                  /\ count_sleeps (retryDelay cfg) (attempts b) = k).
Proof.
  intros cfg cc cs usedPrompts description w k completion result
    Hk Hfail Hok Hsfail Hsok attempts ri rs.
  assert (Ei : ri = (Some (newIdea_of completion),
                     call false (failed_attempts false (retryDelay cfg) k w))).
  { unfold ri, generateNewIdea.
    apply (retry_succeeds_after cfg _ _ false (idea_outcome cc usedPrompts)
             (try_generateNewIdea_shape cc usedPrompts) k 1 w).
    - intros j Hj. unfold idea_outcome. rewrite Hfail by exact Hj.
      reflexivity.
    - unfold idea_outcome. rewrite Hok. reflexivity.
    - lia. }
  assert (Es : rs = (Some result,
                     call true (failed_attempts true (retryDelay cfg) k w))).
  { unfold rs, generateSVGWithGPT4.
    apply (retry_succeeds_after cfg _ _ true (svg_outcome cs description)
             (try_generateSVG_shape cs description) k 1 w result
             Hsfail Hsok).
    lia. }
  rewrite Ei, Es. simpl.
  rewrite !failed_attempts_trace, !failed_attempts_calls, <- !app_assoc.
  split; [| split].
  - split; [reflexivity |]. split; [lia | reflexivity].
  - split; [reflexivity |]. split; [lia | reflexivity].
  - intros b. unfold attempts.
    rewrite count_creates_app, count_sleeps_app,
      count_creates_retry_events, count_sleeps_retry_events.
    unfold count_creates, count_sleeps. simpl.
    destruct b; simpl; split; lia.
Qed.


(** ** The stream accumulator (claims C5, C9) *)

Lemma string_app_nil_r (s : string) : (s ++ "")%string = s.
Proof.
  induction s as [|c s IH]; [reflexivity|].
  change (String c (s ++ "") = String c s). rewrite IH. reflexivity.
Qed.

Lemma string_app_assoc (s t u : string) :
  ((s ++ t) ++ u)%string = (s ++ (t ++ u))%string.
Proof.
  induction s as [|c s IH]; [reflexivity|].
  change (String c ((s ++ t) ++ u) = String c (s ++ (t ++ u))).
  rewrite IH. reflexivity.
Qed.

(** A chunk that does not end the stream appends exactly its text. *)
Lemma accumulate_continue acc c rest :
  continues c = true ->
  accumulate acc (Yield c :: rest) = accumulate (acc ++ chunk_text c) rest.
Proof.
  unfold continues, chunk_text, first_choice. simpl.
  destruct (chunk_choices c) as [|c0 tl]; simpl; [discriminate|].
  intros Hc. apply negb_true_iff in Hc. rewrite Hc.
  unfold delta_text.
  destruct (delta c0) as [d|]; [| rewrite string_app_nil_r; reflexivity].
  destruct (delta_content d) as [s|]; [| rewrite string_app_nil_r; reflexivity].
  destruct s as [|a s]; [rewrite string_app_nil_r |]; reflexivity.
Qed.

Lemma accumulate_prefix pre : forall acc rest,
  forallb continues pre = true ->
  accumulate acc (map Yield pre ++ rest)
  = accumulate (acc ++ concat_text pre) rest.
Proof.
  induction pre as [|c pre IH]; intros acc rest Hpre; simpl.
  - rewrite string_app_nil_r. reflexivity.
  - simpl in Hpre. apply andb_true_iff in Hpre. destruct Hpre as [Hc Hpre].
    change (accumulate acc (Yield c :: (map Yield pre ++ rest))
            = accumulate (acc ++ (chunk_text c ++ concat_text pre)) rest).
    rewrite accumulate_continue by exact Hc.
    rewrite IH by exact Hpre. rewrite string_app_assoc. reflexivity.
Qed.

Lemma accumulate_finish acc fin post :
  finishes fin = true ->
  accumulate acc (Yield fin :: post) = (Some acc, post).
Proof.
  unfold finishes, first_choice. simpl.
  destruct (chunk_choices fin) as [|c0 tl]; simpl; [discriminate|].
  intros ->. reflexivity.
Qed.

(** C5. The accumulator takes the fragments in arrival order and appends
    the text of each to the growing string; at the first fragment whose
    finish reason is "stop" or "length" it stops: that fragment's own
    content and all later fragments are left out, the later ones not even
    pulled from the stream.  For ["<svg", " width", finish=stop] the
    result is "<svg width", also when more fragments are queued. *)
Theorem accumulate_until_finish :
  forall acc pre fin post,
    forallb continues pre = true ->
    finishes fin = true ->
    accumulate acc (map Yield pre ++ Yield fin :: post)
      = (Some (acc ++ concat_text pre)%string, post)
    /\ (forall s d,
          finishes {| chunk_choices :=
                        [ {| finish_reason := Some s; delta := d |} ] |}
          = (String.eqb s "stop" || String.eqb s "length"))
    /\ accumulate ""
         [Yield (text_chunk "<svg"); Yield (text_chunk " width");
          Yield (finish_chunk "stop")]
       = (Some "<svg width", [])
    /\ accumulate ""
         [Yield (text_chunk "<svg"); Yield (text_chunk " width");
          Yield (finish_chunk "stop"); Yield (text_chunk "</svg>")]
       = (Some "<svg width", [Yield (text_chunk "</svg>")]).
Proof.
  intros acc pre fin post Hpre Hfin.
  split; [| split; [| split]]; try reflexivity.
  rewrite accumulate_prefix by exact Hpre.
  apply accumulate_finish. exact Hfin.
Qed.

(** C9. Every attempt of [generateSVGWithGPT4] starts from the empty
    string: when the first [k] attempts fail (possibly mid-stream, after
    delivering fragments) and the next one runs to a finish signal, the
    artifact text is the trimmed concatenation of the fragments of that
    last attempt only. *)
Theorem svg_attempts_start_empty :
  forall cfg cs description w (k : nat) pre fin post,
    Z.of_nat k + 1 <= maxRetries cfg ->
    (forall j, (j < k)%nat -> svg_outcome cs description (calls w + j) = None) ->
    cs (calls w + k)%nat description
      = Some (map Yield pre ++ Yield fin :: post)%list ->
    forallb continues pre = true ->
    finishes fin = true ->
    fst (generateSVGWithGPT4 cfg cs description w)
    = Some {| description := description;
              svg := JsString.trim (concat_text pre) |}.
Proof.
  intros cfg cs description w k pre fin post Hk Hfail Hlast Hpre Hfin.
  unfold generateSVGWithGPT4.
  rewrite (retry_succeeds_after cfg _ _ true (svg_outcome cs description)
             (try_generateSVG_shape cs description) k 1 w
             {| description := description;
                svg := JsString.trim (concat_text pre) |}).
  - reflexivity.
  - exact Hfail.
  - unfold svg_outcome. rewrite Hlast.
    rewrite accumulate_prefix by exact Hpre.
    rewrite accumulate_finish by exact Hfin. reflexivity.
  - lia.
Qed.

(** ** File names (claims C7, C8) *)

Lemma map_chars_map_chars f g s :
  JsString.map_chars f (JsString.map_chars g s)
  = JsString.map_chars (fun c => f (g c)) s.
Proof. induction s as [|c s IH]; simpl; [reflexivity | rewrite IH; reflexivity]. Qed.

Lemma map_chars_ext f g s :
  (forall c, f c = g c) -> JsString.map_chars f s = JsString.map_chars g s.
Proof.
  intros H. induction s as [|c s IH]; simpl; [reflexivity|].
  rewrite H, IH. reflexivity.
Qed.

Lemma map_chars_length f s :
  String.length (JsString.map_chars f s) = String.length s.
Proof. induction s as [|c s IH]; simpl; [reflexivity | rewrite IH; reflexivity]. Qed.

Lemma all_chars_map_chars p f s :
  (forall c, p (f c) = true) ->
  JsString.all_chars p (JsString.map_chars f s) = true.
Proof.
  intros H. induction s as [|c s IH]; simpl; [reflexivity|].
  rewrite H, IH. reflexivity.
Qed.

Lemma map_chars_fixed f s :
  JsString.map_chars f s = s
  <-> JsString.all_chars (fun c => Ascii.eqb (f c) c) s = true.
Proof.
  induction s as [|c s IH]; simpl; [split; reflexivity|].
  rewrite andb_true_iff, <- IH. split.
  - intros H. injection H as Hc Hs. rewrite Hc, Ascii.eqb_refl.
    split; [reflexivity | exact Hs].
  - intros [Hc Hs]. apply Ascii.eqb_eq in Hc. rewrite Hc, Hs. reflexivity.
Qed.

Lemma all_chars_ext p q s :
  (forall c, p c = q c) -> JsString.all_chars p s = JsString.all_chars q s.
Proof.
  intros H. induction s as [|c s IH]; simpl; [reflexivity|].
  rewrite H, IH. reflexivity.
Qed.

Lemma sanitize_char_spec c :
  JsString.lower_char (if JsString.is_alnum_i c then c else "_"%char)
  = sanitize_char c
  /\ is_filename_char (sanitize_char c) = true.
Proof.
  destruct c as [[] [] [] [] [] [] [] []]; vm_compute; split; reflexivity.
Qed.

Lemma describe_char_spec c :
  (let c' := sanitize_char c in
   if Ascii.eqb c' "_" then " "%char else c') = describe_char c
  /\ Ascii.eqb (describe_char c) c = survives_roundtrip c.
Proof.
  destruct c as [[] [] [] [] [] [] [] []]; vm_compute; split; reflexivity.
Qed.

Lemma sanitizeFilename_map s :
  sanitizeFilename s = JsString.map_chars sanitize_char s.
Proof.
  unfold sanitizeFilename, JsString.toLowerCase, JsString.replace_non_alnum.
  rewrite map_chars_map_chars. apply map_chars_ext.
  intros c. apply sanitize_char_spec.
Qed.

Lemma string_app_length (s t : string) :
  String.length (s ++ t) = (String.length s + String.length t)%nat.
Proof.
  induction s as [|c s IH]; [reflexivity|].
  change (S (String.length (s ++ t)) = S (String.length s + String.length t)).
  rewrite IH. reflexivity.
Qed.

Lemma strip_suffix_app ext s :
  NodePath.strip_suffix ext (s ++ ext) = Some s.
Proof.
  induction s as [|c s IH].
  - change ("" ++ ext)%string with ext.
    destruct ext; cbn [NodePath.strip_suffix]; rewrite String.eqb_refl;
      reflexivity.
  - change (String c s ++ ext)%string with (String c (s ++ ext)).
    cbn [NodePath.strip_suffix]. rewrite IH.
    destruct (String.eqb_spec (String c (s ++ ext)) ext) as [E|_];
      [| reflexivity].
    apply (f_equal String.length) in E. simpl in E.
    rewrite string_app_length in E. lia.
Qed.

Lemma basename_entry_name s :
  NodePath.basename (s ++ ".svg") ".svg" = s.
Proof.
  unfold NodePath.basename. cbn [JsString.is_empty].
  rewrite strip_suffix_app. reflexivity.
Qed.

(** C7 (amended). [sanitizeFilename] rewrites its input code unit by code
    unit: letters and digits are lowercased, every other code unit becomes
    one underscore of its own, so the length is kept and the result holds
    only lowercase letters, digits and underscores.  "A Cat! (v2)" becomes
    "a_cat___v2_", with three underscores for '!', ' ' and '('. *)
Theorem sanitizeFilename_charwise :
  forall s,
    sanitizeFilename s = JsString.map_chars sanitize_char s
    /\ JsString.all_chars is_filename_char (sanitizeFilename s) = true
    /\ String.length (sanitizeFilename s) = String.length s
    /\ sanitizeFilename "A Cat! (v2)" = "a_cat___v2_".
Proof.
  intros s. rewrite sanitizeFilename_map.
  split; [reflexivity |]. split; [| split].
  - apply all_chars_map_chars. intros c. apply sanitize_char_spec.
  - apply map_chars_length.
  - reflexivity.
Qed.

(** C7 as stated fails: the result for "A Cat! (v2)" is not "a_cat__v2_". *)
Lemma sanitizeFilename_not_spec_example :
  sanitizeFilename "A Cat! (v2)" <> "a_cat__v2_".
Proof. vm_compute. discriminate. Qed.

(** C8 (amended). The description stage 2 derives from the file stage 1
    wrote for an idea is the idea with its ASCII letters lowercased, its
    digits kept and every other code unit turned into a space; it is the
    idea itself exactly when the idea holds only lowercase ASCII letters,
    digits and spaces. *)
Theorem description_of_sanitized_idea :
  forall idea,
    description_of_file (svg_entry_name idea)
      = JsString.map_chars describe_char idea
    /\ (description_of_file (svg_entry_name idea) = idea
        <-> JsString.all_chars survives_roundtrip idea = true).
Proof.
  intros idea.
  assert (E : description_of_file (svg_entry_name idea)
              = JsString.map_chars describe_char idea).
  { unfold description_of_file, svg_entry_name.
    rewrite basename_entry_name, sanitizeFilename_map.
    unfold JsString.replace_underscores. rewrite map_chars_map_chars.
    apply map_chars_ext. intros c. apply describe_char_spec. }
  split; [exact E |].
  rewrite E, map_chars_fixed.
  rewrite (all_chars_ext _ survives_roundtrip); [reflexivity |].
  intros c. apply describe_char_spec.
Qed.

(** C8 as stated fails: the derivation does not give back "A Cat". *)
Lemma description_does_not_reverse :
  description_of_file (svg_entry_name "A Cat") <> "A Cat".
Proof. vm_compute. discriminate. Qed.

(** ** The main loop (claims C1, C4, C6, C10) *)

#[local] Arguments JsString.startsWith : simpl never.
#[local] Arguments JsString.trim : simpl never.
#[local] Arguments validateSVG : simpl never.

(** Every execution of the loop body follows one of the four ways. *)
Lemma iteration_outcome_holds cfg cc cs fault i usedPrompts w :
  iteration_outcome cfg cc cs fault i usedPrompts w
    (iteration cfg cc cs fault i usedPrompts w).
Proof.
  unfold iteration.
  destruct (generateNewIdea cfg cc usedPrompts w) as [[idea|] w1] eqn:E1.
  2:{ eapply OutcomeNoIdea; [exact E1 | reflexivity]. }
  destruct (JsString.is_empty idea) eqn:Ee.
  { eapply OutcomeNoIdea; [exact E1 | simpl; rewrite Ee; reflexivity]. }
  destruct (generateSVGWithGPT4 cfg cs idea w1) as [[r|] w2] eqn:E2.
  2:{ exact (OutcomeNoArtifact cfg cc cs fault i usedPrompts w
               idea w1 None w2 E1 Ee E2 I). }
  destruct (validateSVG r) eqn:Ev.
  2:{ exact (OutcomeNoArtifact cfg cc cs fault i usedPrompts w
               idea w1 (Some r) w2 E1 Ee E2 Ev). }
  unfold writeFileSync.
  destruct (write_ok fault (svg_path cfg idea) (svg r) w2) eqn:Ew.
  - exact (OutcomeSaved cfg cc cs fault i usedPrompts w idea w1 r w2
             E1 Ee E2 Ev Ew).
  - exact (OutcomeWriteThrows cfg cc cs fault i usedPrompts w idea w1 r w2
             E1 Ee E2 Ev Ew).
Qed.

Lemma generateNewIdea_world cfg cc usedPrompts w o w1 :
  generateNewIdea cfg cc usedPrompts w = (o, w1) ->
  (exists evs, trace w1 = (trace w ++ evs)%list /\ written evs = [])
  /\ files w1 = files w /\ dirs w1 = dirs w.
Proof.
  intros E. pose proof (generateNewIdea_preserves cfg cc usedPrompts w) as H.
  rewrite E in H. exact H.
Qed.

Lemma generateSVGWithGPT4_world cfg cs desc w o w2 :
  generateSVGWithGPT4 cfg cs desc w = (o, w2) ->
  (exists evs, trace w2 = (trace w ++ evs)%list /\ written evs = [])
  /\ files w2 = files w /\ dirs w2 = dirs w.
Proof.
  intros E. pose proof (generateSVGWithGPT4_preserves cfg cs desc w) as H.
  rewrite E in H. exact H.
Qed.

Lemma pause_after_world cfg i w :
  trace (pause_after cfg i w)
  = (trace w ++ if i <? outputCount cfg - 1
                then [EvSleep (generationDelay cfg)] else [])%list
  /\ files (pause_after cfg i w) = files w
  /\ dirs (pause_after cfg i w) = dirs w
  /\ calls (pause_after cfg i w) = calls w.
Proof.
  unfold pause_after. destruct (i <? outputCount cfg - 1); simpl.
  - repeat split; reflexivity.
  - rewrite app_nil_r. repeat split; reflexivity.
Qed.

Lemma pause_after_written cfg i w :
  written (trace (pause_after cfg i w)) = written (trace w).
Proof.
  destruct (pause_after_world cfg i w) as [-> _]. rewrite written_app.
  destruct (i <? outputCount cfg - 1); simpl; apply app_nil_r.
Qed.

(** What one iteration does to the list of written files and to the file
    map. *)
Lemma iteration_written cfg cc cs fault i usedPrompts w :
  let r := iteration cfg cc cs fault i usedPrompts w in
  (written (trace (snd (snd r))) = written (trace w)
   /\ files (snd (snd r)) = files w)
  \/ exists idea w1 res w2,
       generateNewIdea cfg cc usedPrompts w = (Some idea, w1)
       /\ JsString.is_empty idea = false
       /\ generateSVGWithGPT4 cfg cs idea w1 = (Some res, w2)
       /\ validateSVG res = true
       /\ write_ok fault (svg_path cfg idea) (svg res) w2 = true
       /\ fst r = Normal
       /\ written (trace (snd (snd r)))
          = (written (trace w) ++ [(svg_path cfg idea, svg res)])%list
       /\ files (snd (snd r)) = <[ svg_path cfg idea := svg res ]> (files w).
Proof.
  cbv zeta.
  destruct (iteration_outcome_holds cfg cc cs fault i usedPrompts w)
    as [o w1 E1 Ho | idea w1 result w2 E1 Ee E2 Hr
        | idea w1 r w2 E1 Ee E2 Ev Ew | idea w1 r w2 E1 Ee E2 Ev Ew];
    cbn [fst snd].
  - left. destruct (generateNewIdea_world _ _ _ _ _ _ E1)
      as [[evs [Ht Hw]] [Hf _]].
    rewrite Ht, written_app, Hw, app_nil_r. split; [reflexivity | exact Hf].
  - left. destruct (generateNewIdea_world _ _ _ _ _ _ E1)
      as [[evs [Ht Hw]] [Hf _]].
    destruct (generateSVGWithGPT4_world _ _ _ _ _ _ E2)
      as [[evs2 [Ht2 Hw2]] [Hf2 _]].
    rewrite pause_after_written.
    destruct (pause_after_world cfg i w2) as [_ [-> _]].
    rewrite Ht2, written_app, Hw2, Ht, written_app, Hw, !app_nil_r.
    split; [reflexivity | rewrite Hf2; exact Hf].
  - right. exists idea, w1, r, w2.
    destruct (generateNewIdea_world _ _ _ _ _ _ E1)
      as [[evs [Ht Hw]] [Hf _]].
    destruct (generateSVGWithGPT4_world _ _ _ _ _ _ E2)
      as [[evs2 [Ht2 Hw2]] [Hf2 _]].
    repeat (split; [assumption || reflexivity |]).
    rewrite pause_after_written.
    destruct (pause_after_world cfg i (store (svg_path cfg idea) (svg r) w2))
      as [_ [-> _]].
    simpl. rewrite written_app, Ht2, written_app, Hw2, Ht, written_app, Hw.
    rewrite !app_nil_r, Hf2, Hf. split; reflexivity.
  - left. destruct (generateNewIdea_world _ _ _ _ _ _ E1)
      as [[evs [Ht Hw]] [Hf _]].
    destruct (generateSVGWithGPT4_world _ _ _ _ _ _ E2)
      as [[evs2 [Ht2 Hw2]] [Hf2 _]].
    rewrite Ht2, written_app, Hw2, Ht, written_app, Hw, !app_nil_r.
    split; [reflexivity | rewrite Hf2; exact Hf].
Qed.

Lemma loop_from_run cfg cc cs fault (n : nat) : forall i s,
  0 <= i ->
  Z.to_nat (outputCount cfg - i) = n ->
  loop_from cfg cc cs fault i s
  = run_iterations cfg cc cs fault (map Z.of_nat (seq (Z.to_nat i) n)) s.
Proof.
  induction n as [|n IH]; intros i s Hi Hn; rewrite loop_from_step.
  - destruct (Z.ltb_spec i (outputCount cfg)); [lia | reflexivity].
  - destruct (Z.ltb_spec i (outputCount cfg)); [| lia].
    cbn [seq map run_iterations]. rewrite Z2Nat.id by exact Hi.
    destruct (iteration cfg cc cs fault i (fst s) (snd s)) as [[|] s'];
      [| reflexivity].
    rewrite (IH (i + 1)) by lia.
    replace (Z.to_nat (i + 1)) with (S (Z.to_nat i)) by lia. reflexivity.
Qed.

(** *** When the file system lets every write through *)

Lemma parent_no_slash name :
  JsString.all_chars not_slash name = true -> NodePath.parent name = None.
Proof.
  induction name as [|c name IH]; [reflexivity |].
  cbn [JsString.all_chars NodePath.parent]. intros H.
  apply andb_true_iff in H. destruct H as [Hc Hn]. rewrite (IH Hn).
  unfold not_slash in Hc. apply negb_true_iff in Hc. rewrite Hc.
  reflexivity.
Qed.

Lemma parent_join dir name :
  JsString.all_chars not_slash name = true ->
  NodePath.parent (NodePath.join dir name) = Some dir.
Proof.
  intros H. unfold NodePath.join. induction dir as [|c dir IH].
  - change ("" ++ "/" ++ name)%string with (String "/" name).
    cbn [NodePath.parent]. rewrite (parent_no_slash name H). reflexivity.
  - change (String c dir ++ "/" ++ name)%string
      with (String c (dir ++ "/" ++ name)).
    cbn [NodePath.parent]. rewrite IH. reflexivity.
Qed.

Lemma filename_char_not_slash c :
  is_filename_char c = true -> not_slash c = true.
Proof.
  destruct c as [[] [] [] [] [] [] [] []]; vm_compute;
    intros H; try reflexivity; discriminate H.
Qed.

Lemma all_chars_impl (p q : ascii -> bool) s :
  (forall c, p c = true -> q c = true) ->
  JsString.all_chars p s = true -> JsString.all_chars q s = true.
Proof.
  intros Hpq. induction s as [|c s IH]; [reflexivity |].
  cbn [JsString.all_chars]. intros H. apply andb_true_iff in H.
  destruct H as [Hc Hs]. rewrite (Hpq c Hc), (IH Hs). reflexivity.
Qed.

Lemma all_chars_append p a b :
  JsString.all_chars p (a ++ b)
  = JsString.all_chars p a && JsString.all_chars p b.
Proof.
  induction a as [|x a IH]; [reflexivity |].
  change (String x a ++ b)%string with (String x (a ++ b)).
  cbn [JsString.all_chars]. rewrite IH, andb_assoc. reflexivity.
Qed.

Lemma svg_entry_name_no_slash idea :
  JsString.all_chars not_slash (svg_entry_name idea) = true.
Proof.
  unfold svg_entry_name. rewrite all_chars_append. apply andb_true_iff.
  split; [| reflexivity].
  apply (all_chars_impl is_filename_char); [apply filename_char_not_slash |].
  rewrite sanitizeFilename_map. apply all_chars_map_chars.
  intros c. apply sanitize_char_spec.
Qed.

Lemma svg_path_parent cfg idea :
  NodePath.parent (svg_path cfg idea) = Some (outputFolder cfg).
Proof.
  apply (parent_join (outputFolder cfg) (svg_entry_name idea)).
  apply svg_entry_name_no_slash.
Qed.




Lemma iteration_dirs cfg cc cs fault i usedPrompts w :
  dirs (snd (snd (iteration cfg cc cs fault i usedPrompts w))) = dirs w.
Proof.
  destruct (iteration_outcome_holds cfg cc cs fault i usedPrompts w)
    as [o w1 E1 Ho | idea w1 result w2 E1 Ee E2 Hr
        | idea w1 r w2 E1 Ee E2 Ev Ew | idea w1 r w2 E1 Ee E2 Ev Ew];
    cbn [fst snd];
    destruct (generateNewIdea_world _ _ _ _ _ _ E1) as [_ [_ Hd]];
    try (destruct (generateSVGWithGPT4_world _ _ _ _ _ _ E2)
           as [_ [_ Hd2]]);
    try (destruct (pause_after_world cfg i w2) as [_ [_ [-> _]]]);
    try (destruct (pause_after_world cfg i
                     (store (svg_path cfg idea) (svg r) w2))
           as [_ [_ [-> _]]]);
    simpl; congruence.
Qed.







(** C1 (amended). In an iteration that is not the last one and whose idea
    call returned a non-empty idea, the last thing the iteration does is
    pause for [generationDelay], whether or not an artifact was produced
    or accepted, unless [fs.writeFileSync] throws for an accepted artifact:
    then the exception leaves the iteration without a pause.  When the
    idea call returned no idea ([null] or the empty string) the iteration
    ends with the idea call: nothing is added to the session list and no
    pause follows. *)
Theorem pause_after_nonfinal_iteration_with_idea :
  forall cfg cc cs fault i usedPrompts w,
    i < outputCount cfg - 1 ->
    let r1 := generateNewIdea cfg cc usedPrompts w in
    let r := iteration cfg cc cs fault i usedPrompts w in
    if JsString.truthy (fst r1)
    then match fst r with
         | Normal =>
             exists evs,
               trace (snd (snd r))
               = (trace (snd r1) ++ evs
                  ++ [EvSleep (generationDelay cfg)])%list
         | Abrupt =>
             exists idea res w2,
               fst r1 = Some idea
               /\ generateSVGWithGPT4 cfg cs idea (snd r1) = (Some res, w2)
               /\ validateSVG res = true
               /\ write_ok fault (svg_path cfg idea) (svg res) w2 = false
               /\ snd (snd r) = w2
         end
    else r = (Normal, (usedPrompts, snd r1)).
Proof.
  intros cfg cc cs fault i usedPrompts w Hi. cbv zeta.
  assert (Hp : forall w0, trace (pause_after cfg i w0)
                 = (trace w0 ++ [EvSleep (generationDelay cfg)])%list).
  { intros w0. destruct (pause_after_world cfg i w0) as [-> _].
    destruct (Z.ltb_spec i (outputCount cfg - 1)); [reflexivity | lia]. }
  destruct (iteration_outcome_holds cfg cc cs fault i usedPrompts w)
    as [o w1 E1 Ho | idea w1 result w2 E1 Ee E2 Hr
        | idea w1 r w2 E1 Ee E2 Ev Ew | idea w1 r w2 E1 Ee E2 Ev Ew];
    rewrite E1; cbn [fst snd].
  - rewrite Ho. reflexivity.
  - simpl. rewrite Ee. cbn [negb].
    destruct (generateSVGWithGPT4_world _ _ _ _ _ _ E2) as [[e2 [Ht2 _]] _].
    exists e2. rewrite Hp, Ht2, <- app_assoc. reflexivity.
  - simpl JsString.truthy. rewrite Ee. cbn [negb].
    destruct (generateSVGWithGPT4_world _ _ _ _ _ _ E2) as [[e2 [Ht2 _]] _].
    exists (e2 ++ [EvWriteFile (svg_path cfg idea) (svg r)])%list.
    rewrite Hp. simpl. rewrite Ht2, <- !app_assoc. reflexivity.
  - simpl JsString.truthy. rewrite Ee. cbn [negb].
    exists idea, r, w2. repeat split; assumption.
Qed.

(** C1 as stated fails: with two iterations and a collaborator that always
    fails, the first iteration ends without any pause. *)
Lemma no_pause_after_failed_idea :
  ~ pauses_after_every_nonfinal_iteration two_iterations
      failing_completion failing_stream no_fault.
Proof.
  intros H.
  destruct (H 0 [] initial_world) as [t Ht]; [simpl; lia |].
  vm_compute in Ht.
  destruct t as [|e [|e' t]]; simpl in Ht; discriminate Ht.
Qed.

(** C10. When the response to the idea request has no choices, or an
    empty message content, [generateNewIdea] returns the empty string as
    soon as that response arrives, with no further attempt; the main loop
    then ends the iteration as it does for [null]: the session list is
    unchanged and no artifact request is made. *)
Theorem empty_idea_is_returned_and_skipped :
  forall cfg cc cs fault i usedPrompts w (k : nat) completion,
    Z.of_nat k + 1 <= maxRetries cfg ->
    (forall j, (j < k)%nat -> cc (calls w + j)%nat usedPrompts = None) ->
    cc (calls w + k)%nat usedPrompts = Some completion ->
    newIdea_of completion = "" ->
    let w1 := call false (failed_attempts false (retryDelay cfg) k w) in
    generateNewIdea cfg cc usedPrompts w = (Some "", w1)
    /\ iteration cfg cc cs fault i usedPrompts w
       = (Normal, (usedPrompts, w1))
    /\ count_creates true (trace w1) = count_creates true (trace w)
    /\ newIdea_of {| choices := None |} = ""
    /\ newIdea_of {| choices := Some [] |} = ""
    /\ (forall tl,
          newIdea_of
            {| choices :=
                 Some ({| message := Some {| content := Some "" |} |} :: tl) |}
          = "").
Proof.
  intros cfg cc cs fault i usedPrompts w k completion Hk Hfail Hok Hempty w1.
  assert (Hidea : generateNewIdea cfg cc usedPrompts w = (Some "", w1)).
  { unfold generateNewIdea.
    apply (retry_succeeds_after cfg _ _ false (idea_outcome cc usedPrompts)
             (try_generateNewIdea_shape cc usedPrompts) k 1 w "").
    - intros j Hj. unfold idea_outcome. rewrite Hfail by exact Hj.
      reflexivity.
    - unfold idea_outcome. rewrite Hok. simpl. rewrite Hempty. reflexivity.
    - lia. }
  split; [exact Hidea |]. split; [| split; [| repeat split; reflexivity]].
  - unfold iteration. rewrite Hidea. reflexivity.
  - unfold w1. simpl. rewrite failed_attempts_trace, !count_creates_app.
    assert (E : forall n, count_creates true
                  (retry_events false (retryDelay cfg) n) = O).
    { induction n as [|n IHn]; [reflexivity | exact IHn]. }
    rewrite E. change (count_creates true [EvCreate false]) with O. lia.
Qed.

(** ** The statements at work on the sample collaborators *)

(** One failed attempt, then success: two invocations, one suspension. *)
Lemma retry_succeeds_after_one_failure :
  fst (generateNewIdea config flaky_completion [] initial_world) = Some "A Cat"
  /\ trace (snd (generateNewIdea config flaky_completion [] initial_world))
     = [EvCreate false; EvSleep 3000; EvCreate false]
  /\ fst (generateSVGWithGPT4 config flaky_stream "a cat" initial_world)
     = Some {| description := "a cat"; svg := "<svg width" |}
  /\ trace (snd (generateSVGWithGPT4 config flaky_stream "a cat" initial_world))
     = [EvCreate true; EvSleep 3000; EvCreate true].
Proof.
  destruct (retry_succeeds_after_k_failures config flaky_completion
              flaky_stream [] "a cat" initial_world 1
              (completion_with " A Cat ")
              {| description := "a cat"; svg := "<svg width" |})
    as [[H1 [_ H2]] [[H3 [_ H4]] _]].
  - simpl. lia.
  - intros j Hj. assert (j = O) by lia. subst j. reflexivity.
  - reflexivity.
  - intros j Hj. assert (j = O) by lia. subst j. reflexivity.
  - reflexivity.
  - repeat split; assumption.
Defined.


(** Two fragments, a "length" finish signal and one more queued fragment. *)
Lemma accumulate_until_length :
  accumulate ""
    [Yield (text_chunk "<svg"); Yield (text_chunk " width");
     Yield (finish_chunk "length"); Yield (text_chunk "</svg>")]
  = (Some "<svg width", [Yield (text_chunk "</svg>")]).
Proof.
  exact (proj1 (accumulate_until_finish ""
                  [text_chunk "<svg"; text_chunk " width"]
                  (finish_chunk "length") [Yield (text_chunk "</svg>")]
                  eq_refl eq_refl)).
Defined.

(** The fragment "<rect" of the attempt that broke mid-stream is not part
    of the artifact returned by the next attempt. *)
Lemma artifact_of_second_attempt :
  fst (generateSVGWithGPT4 config flaky_stream "a cat" initial_world)
  = Some {| description := "a cat"; svg := "<svg width" |}.
Proof.
  apply (svg_attempts_start_empty config flaky_stream "a cat" initial_world 1
           [text_chunk "<svg"; text_chunk " width"] (finish_chunk "stop")
           [Yield (text_chunk "</svg>")]).
  - simpl. lia.
  - intros j Hj. assert (j = O) by lia. subst j. reflexivity.
  - reflexivity.
  - reflexivity.
  - reflexivity.
Defined.

(** A first iteration with an idea, under the program's configuration and
    with the output folder in place. *)
Lemma first_iteration_ends_with_pause :
  0 < outputCount config - 1
  /\ exists evs,
       trace (snd (snd (iteration config flaky_completion flaky_stream
                          no_fault 0 [] folder_ready)))
       = (trace (snd (generateNewIdea config flaky_completion []
                        folder_ready))
          ++ evs ++ [EvSleep (generationDelay config)])%list.
Proof.
  assert (H : 0 < outputCount config - 1) by (simpl; lia).
  split; [exact H |].
  exact (pause_after_nonfinal_iteration_with_idea config flaky_completion
           flaky_stream no_fault 0 [] folder_ready H).
Defined.

(** A response without choices on the first attempt. *)
Lemma empty_response_skips_iteration :
  generateNewIdea config empty_completion [] initial_world
    = (Some "", call false initial_world)
  /\ iteration config empty_completion flaky_stream no_fault 0 []
       initial_world
    = (Normal, ([], call false initial_world)).
Proof.
  destruct (empty_idea_is_returned_and_skipped config empty_completion
              flaky_stream no_fault 0 [] initial_world 0
              {| choices := Some [] |})
    as [H1 [H2 _]].
  - simpl. lia.
  - intros j Hj. lia.
  - reflexivity.
  - reflexivity.
  - split; assumption.
Defined.




(** * Further properties of the program *)

(** ** Trimming *)

Lemma trimEnd_idempotent s : JsString.trimEnd (JsString.trimEnd s) = JsString.trimEnd s.
Proof.
  induction s as [|c s IH]; [reflexivity|].
  cbn [JsString.trimEnd].
  destruct (JsString.is_whitespace c && JsString.is_empty (JsString.trimEnd s))
    eqn:E; [reflexivity|].
  cbn [JsString.trimEnd]. rewrite IH, E. reflexivity.
Qed.

Lemma trimStart_head s :
  match JsString.trimStart s with
  | EmptyString => True
  | String c _ => JsString.is_whitespace c = false
  end.
Proof.
  induction s as [|c s IH]; [exact I|].
  cbn [JsString.trimStart].
  destruct (JsString.is_whitespace c) eqn:E; [exact IH | exact E].
Qed.

Lemma trimStart_trimEnd_fixed t :
  match t with
  | EmptyString => True
  | String c _ => JsString.is_whitespace c = false
  end ->
  JsString.trimStart (JsString.trimEnd t) = JsString.trimEnd t.
Proof.
  destruct t as [|c r]; [reflexivity|]. intros Hc.
  cbn [JsString.trimEnd]. rewrite Hc. cbn [andb JsString.trimStart].
  rewrite Hc. reflexivity.
Qed.

Lemma trim_idempotent s : JsString.trim (JsString.trim s) = JsString.trim s.
Proof.
  unfold JsString.trim.
  rewrite (trimStart_trimEnd_fixed (JsString.trimStart s))
    by apply trimStart_head.
  apply trimEnd_idempotent.
Qed.

Lemma newIdea_of_trimmed c : JsString.trim (newIdea_of c) = newIdea_of c.
Proof.
  unfold newIdea_of.
  destruct (choices c) as [[|c0 tl]|]; try reflexivity.
  destruct (message c0) as [m|]; [| reflexivity].
  destruct (content m) as [s|]; [| reflexivity].
  apply trim_idempotent.
Qed.

(** ** More on the retry loop *)

Section RetryFacts.

Variable cfg : Config.
Variable A : Type.
Variable tryBlock : World -> option A * World.
Variable stream : bool.
Variable outcome : nat -> option A.

Hypothesis attempt_shape :
  forall w, tryBlock w = (outcome (calls w), call stream w).

(** The value returned is that of the first successful attempt; [None] is
    returned only after every attempt failed. *)
Lemma retry_from_result (n : nat) : forall attempt w,
  Z.to_nat (maxRetries cfg + 1 - attempt) = n ->
  match fst (retry_from cfg tryBlock attempt w) with
  | Some v =>
      exists k, (k < n)%nat
        /\ (forall j, (j < k)%nat -> outcome (calls w + j)%nat = None)
        /\ outcome (calls w + k)%nat = Some v
  | None => forall j, (j < n)%nat -> outcome (calls w + j)%nat = None
  end.
Proof.
  induction n as [|n IH]; intros attempt w Hn; rewrite retry_from_step.
  - destruct (Z.leb_spec attempt (maxRetries cfg)); [lia |].
    simpl. intros j Hj. lia.
  - rewrite attempt_shape.
    destruct (Z.leb_spec attempt (maxRetries cfg)); [| lia].
    destruct (outcome (calls w)) as [r|] eqn:E.
    + simpl. exists O. split; [lia |]. split; [intros j Hj; lia |].
      rewrite Nat.add_0_r. exact E.
    + set (w1 := if attempt <? maxRetries cfg
                 then sleep (retryDelay cfg) (call stream w)
                 else call stream w).
      assert (Hc : calls w1 = S (calls w))
        by (unfold w1; destruct (attempt <? maxRetries cfg); reflexivity).
      specialize (IH (attempt + 1) w1 ltac:(lia)).
      destruct (fst (retry_from cfg tryBlock (attempt + 1) w1)) as [v|].
      * destruct IH as [k [Hk [Hfail Hok]]]. exists (S k).
        split; [lia |]. split.
        -- intros [|j] Hj; [rewrite Nat.add_0_r; exact E |].
           rewrite Nat.add_succ_r, <- Nat.add_succ_l, <- Hc.
           apply Hfail. lia.
        -- rewrite Nat.add_succ_r, <- Nat.add_succ_l, <- Hc. exact Hok.
      * intros [|j] Hj; [rewrite Nat.add_0_r; exact E |].
        rewrite Nat.add_succ_r, <- Nat.add_succ_l, <- Hc. apply IH. lia.
Qed.

(** At most one collaborator call per attempt. *)
Lemma retry_from_calls (n : nat) : forall attempt w,
  Z.to_nat (maxRetries cfg + 1 - attempt) = n ->
  (calls w <= calls (snd (retry_from cfg tryBlock attempt w)) <= calls w + n)%nat.
Proof.
  induction n as [|n IH]; intros attempt w Hn; rewrite retry_from_step.
  - destruct (Z.leb_spec attempt (maxRetries cfg)); [lia |]. simpl. lia.
  - rewrite attempt_shape.
    destruct (Z.leb_spec attempt (maxRetries cfg)); [| lia].
    destruct (outcome (calls w)) as [r|]; [simpl; lia |].
    set (w1 := if attempt <? maxRetries cfg
               then sleep (retryDelay cfg) (call stream w)
               else call stream w).
    assert (Hc : calls w1 = S (calls w))
      by (unfold w1; destruct (attempt <? maxRetries cfg); reflexivity).
    specialize (IH (attempt + 1) w1 ltac:(lia)). lia.
Qed.

(** The events added are none when no attempt is allowed, and otherwise
    end with a collaborator call. *)
Lemma retry_from_last_event (n : nat) : forall attempt w,
  Z.to_nat (maxRetries cfg + 1 - attempt) = n ->
  exists evs,
    trace (snd (retry_from cfg tryBlock attempt w)) = (trace w ++ evs)%list
    /\ ((n = O /\ evs = [])
        \/ exists pre, evs = (pre ++ [EvCreate stream])%list).
Proof.
  induction n as [|n IH]; intros attempt w Hn; rewrite retry_from_step.
  - destruct (Z.leb_spec attempt (maxRetries cfg)); [lia |].
    exists []. simpl. rewrite app_nil_r. split; [reflexivity |].
    left. split; reflexivity.
  - rewrite attempt_shape.
    destruct (Z.leb_spec attempt (maxRetries cfg)); [| lia].
    destruct (outcome (calls w)) as [r|].
    + exists [EvCreate stream]. split; [reflexivity |]. right.
      exists []. reflexivity.
    + destruct (Z.ltb_spec attempt (maxRetries cfg)).
      * destruct (IH (attempt + 1) (sleep (retryDelay cfg) (call stream w)))
          as [evs [Ht Hlast]]; [lia |].
        exists ([EvCreate stream; EvSleep (retryDelay cfg)] ++ evs)%list.
        split; [rewrite Ht; simpl; rewrite <- !app_assoc; reflexivity |].
        right. destruct Hlast as [[Hz _] | [pre Hpre]]; [lia |].
        exists ([EvCreate stream; EvSleep (retryDelay cfg)] ++ pre)%list.
        rewrite Hpre, <- app_assoc. reflexivity.
      * destruct (IH (attempt + 1) (call stream w))
          as [evs [Ht Hlast]]; [lia |].
        exists ([EvCreate stream] ++ evs)%list.
        split; [rewrite Ht; simpl; rewrite <- !app_assoc; reflexivity |].
        right. destruct Hlast as [[_ He] | [pre Hpre]].
        -- exists []. rewrite He. reflexivity.
        -- exists ([EvCreate stream] ++ pre)%list.
           rewrite Hpre, <- app_assoc. reflexivity.
Qed.

End RetryFacts.

(** ** What the retry-wrapped calls return *)

Lemma generateNewIdea_value cfg cc usedPrompts w idea :
  fst (generateNewIdea cfg cc usedPrompts w) = Some idea ->
  JsString.trim idea = idea.
Proof.
  intros H.
  pose proof (retry_from_result cfg _ _ false (idea_outcome cc usedPrompts)
                (try_generateNewIdea_shape cc usedPrompts)
                (Z.to_nat (maxRetries cfg + 1 - 1)) 1 w eq_refl) as R.
  unfold generateNewIdea in H. rewrite H in R.
  destruct R as [k [_ [_ Hk]]]. unfold idea_outcome in Hk.
  destruct (cc (calls w + k)%nat usedPrompts) as [c|]; [| discriminate].
  injection Hk as <-. apply newIdea_of_trimmed.
Qed.

Lemma generateSVGWithGPT4_value cfg cs desc w r :
  fst (generateSVGWithGPT4 cfg cs desc w) = Some r ->
  description r = desc /\ JsString.trim (svg r) = svg r.
Proof.
  intros H.
  pose proof (retry_from_result cfg _ _ true (svg_outcome cs desc)
                (try_generateSVG_shape cs desc)
                (Z.to_nat (maxRetries cfg + 1 - 1)) 1 w eq_refl) as R.
  unfold generateSVGWithGPT4 in H. rewrite H in R.
  destruct R as [k [_ [_ Hk]]]. unfold svg_outcome in Hk.
  destruct (cs (calls w + k)%nat desc) as [items|]; [| discriminate].
  destruct (fst (accumulate "" items)) as [acc|]; [| discriminate].
  injection Hk as <-. split; [reflexivity | apply trim_idempotent].
Qed.

Lemma generateNewIdea_calls cfg cc usedPrompts w :
  (calls w <= calls (snd (generateNewIdea cfg cc usedPrompts w))
   <= calls w + Z.to_nat (maxRetries cfg))%nat.
Proof.
  unfold generateNewIdea.
  pose proof (retry_from_calls cfg _ _ false (idea_outcome cc usedPrompts)
                (try_generateNewIdea_shape cc usedPrompts)
                (Z.to_nat (maxRetries cfg + 1 - 1)) 1 w eq_refl) as R.
  replace (maxRetries cfg + 1 - 1) with (maxRetries cfg) in R by lia.
  exact R.
Qed.

Lemma generateSVGWithGPT4_calls cfg cs desc w :
  (calls w <= calls (snd (generateSVGWithGPT4 cfg cs desc w))
   <= calls w + Z.to_nat (maxRetries cfg))%nat.
Proof.
  unfold generateSVGWithGPT4.
  pose proof (retry_from_calls cfg _ _ true (svg_outcome cs desc)
                (try_generateSVG_shape cs desc)
                (Z.to_nat (maxRetries cfg + 1 - 1)) 1 w eq_refl) as R.
  replace (maxRetries cfg + 1 - 1) with (maxRetries cfg) in R by lia.
  exact R.
Qed.

(** X1. Each retry-wrapped call returns the value of its first successful
    attempt, made within the first [maxRetries] collaborator calls after
    its start, and returns [null] only when all of these attempts failed:
    it neither gives up early nor returns anything but an attempt's
    outcome. *)
Theorem retry_returns_first_success :
  forall cfg cc cs usedPrompts desc w,
    let m := Z.to_nat (maxRetries cfg) in
    match fst (generateNewIdea cfg cc usedPrompts w) with
    | Some idea =>
        exists k, (k < m)%nat
          /\ (forall j, (j < k)%nat ->
                idea_outcome cc usedPrompts (calls w + j) = None)
          /\ idea_outcome cc usedPrompts (calls w + k) = Some idea
    | None =>
        forall j, (j < m)%nat -> idea_outcome cc usedPrompts (calls w + j) = None
    end
    /\ match fst (generateSVGWithGPT4 cfg cs desc w) with
       | Some r =>
           exists k, (k < m)%nat
             /\ (forall j, (j < k)%nat ->
                   svg_outcome cs desc (calls w + j) = None)
             /\ svg_outcome cs desc (calls w + k) = Some r
       | None =>
           forall j, (j < m)%nat -> svg_outcome cs desc (calls w + j) = None
       end.
Proof.
  intros cfg cc cs usedPrompts desc w m.
  assert (Hm : Z.to_nat (maxRetries cfg + 1 - 1) = m) by (unfold m; f_equal; lia).
  split.
  - exact (retry_from_result cfg _ _ false (idea_outcome cc usedPrompts)
             (try_generateNewIdea_shape cc usedPrompts) m 1 w Hm).
  - exact (retry_from_result cfg _ _ true (svg_outcome cs desc)
             (try_generateSVG_shape cs desc) m 1 w Hm).
Qed.

(** ** Effects of one iteration and of a run *)

Lemma run_iterations_snoc cfg cc cs fault i l : forall s,
  run_iterations cfg cc cs fault (l ++ [i]) s
  = match run_iterations cfg cc cs fault l s with
    | (Normal, s1) => iteration cfg cc cs fault i (fst s1) (snd s1)
    | (Abrupt, s1) => (Abrupt, s1)
    end.
Proof.
  induction l as [|j l IH]; intros s; cbn [app run_iterations].
  - destruct (iteration cfg cc cs fault i (fst s) (snd s)) as [[|] s'];
      reflexivity.
  - destruct (iteration cfg cc cs fault j (fst s) (snd s)) as [[|] s'];
      [apply IH | reflexivity].
Qed.

(** A relation that holds across one iteration, composes and can be
    relaxed holds across a run. *)
Lemma run_iterations_graded cfg cc cs fault
    (R : nat -> list string * World -> list string * World -> Prop) :
  (forall s, R O s s) ->
  (forall a b s1 s2 s3, R a s1 s2 -> R b s2 s3 -> R (a + b)%nat s1 s3) ->
  (forall a s1 s2, R a s1 s2 -> R (S a) s1 s2) ->
  (forall i s, R 1%nat s (snd (iteration cfg cc cs fault i (fst s) (snd s)))) ->
  forall l s, R (length l) s (snd (run_iterations cfg cc cs fault l s)).
Proof.
  intros R0 Rt Rm Rs. induction l as [|i l IH]; intros s; [apply R0 |].
  cbn [run_iterations length]. pose proof (Rs i s) as H1.
  destruct (iteration cfg cc cs fault i (fst s) (snd s)) as [[|] s1];
    cbn [snd] in *.
  - exact (Rt 1%nat (length l) s s1 _ H1 (IH s1)).
  - clear IH. induction (length l) as [|n IHn]; [exact H1 |].
    apply Rm. exact IHn.
Qed.

Lemma generateAndSaveSVGs_run cfg cc cs fault w :
  generateAndSaveSVGs cfg cc cs fault w
  = match ensure_folder cfg fault w with
    | (Abrupt, w0) => (Abrupt, w0)
    | (Normal, w0) =>
        let r := run_iterations cfg cc cs fault (indices (outputCount cfg))
                   ([], w0) in
        (fst r, snd (snd r))
    end.
Proof.
  unfold generateAndSaveSVGs, indices.
  destruct (ensure_folder cfg fault w) as [[|] w0]; [| reflexivity].
  rewrite (loop_from_run cfg cc cs fault (Z.to_nat (outputCount cfg)) 0);
    [reflexivity | lia | f_equal; lia].
Qed.

(** The world a run leaves is reached from the world after the folder
    check by at most [outputCount] iterations. *)
Lemma generateAndSaveSVGs_graded cfg cc cs fault
    (R : nat -> list string * World -> list string * World -> Prop) :
  (forall s, R O s s) ->
  (forall a b s1 s2 s3, R a s1 s2 -> R b s2 s3 -> R (a + b)%nat s1 s3) ->
  (forall a s1 s2, R a s1 s2 -> R (S a) s1 s2) ->
  (forall i s, R 1%nat s (snd (iteration cfg cc cs fault i (fst s) (snd s)))) ->
  forall w,
    exists s',
      snd (generateAndSaveSVGs cfg cc cs fault w) = snd s'
      /\ R (Z.to_nat (outputCount cfg))
           ([], snd (ensure_folder cfg fault w)) s'.
Proof.
  intros R0 Rt Rm Rs w. rewrite generateAndSaveSVGs_run.
  destruct (ensure_folder cfg fault w) as [[|] w0]; cbn [fst snd].
  - exists (snd (run_iterations cfg cc cs fault (indices (outputCount cfg))
                   ([], w0))).
    split; [reflexivity |].
    pose proof (run_iterations_graded cfg cc cs fault R R0 Rt Rm Rs
                  (indices (outputCount cfg)) ([], w0)) as H.
    unfold indices in H at 1. rewrite length_map, length_seq in H. exact H.
  - exists ([], w0). split; [reflexivity |].
    induction (Z.to_nat (outputCount cfg)) as [|n IHn];
      [apply R0 | apply Rm; exact IHn].
Qed.

Lemma ensure_folder_world cfg fault w :
  let r := ensure_folder cfg fault w in
  (exists e0, trace (snd r) = (trace w ++ e0)%list
              /\ (e0 = [] \/ e0 = [EvMkdir (outputFolder cfg)]))
  /\ calls (snd r) = calls w
  /\ files (snd r) = files w
  /\ dirs w ⊆ dirs (snd r).
Proof.
  cbv zeta. unfold ensure_folder, mkdirSync.
  destruct (existsSync (outputFolder cfg) w);
    [| destruct (mkdir_ok fault (outputFolder cfg) w)]; cbn [fst snd].
  - split; [exists []; rewrite app_nil_r; split; [reflexivity | left; reflexivity] |].
    repeat split; reflexivity.
  - split; [exists [EvMkdir (outputFolder cfg)]; split;
              [reflexivity | right; reflexivity] |].
    split; [reflexivity |]. split; [reflexivity |].
    simpl. apply union_subseteq_r.
  - split; [exists []; rewrite app_nil_r; split; [reflexivity | left; reflexivity] |].
    repeat split; reflexivity.
Qed.

Lemma ensure_folder_written cfg fault w :
  written (trace (snd (ensure_folder cfg fault w))) = written (trace w).
Proof.
  destruct (ensure_folder_world cfg fault w) as [[e0 [-> He]] _].
  rewrite written_app. destruct He as [-> | ->]; simpl; apply app_nil_r.
Qed.

Lemma generateNewIdea_recorded cfg cc usedPrompts w idea w1 :
  generateNewIdea cfg cc usedPrompts w = (Some idea, w1) ->
  JsString.is_empty idea = false ->
  recorded_idea idea.
Proof.
  intros E Ee. split.
  - intros ->. discriminate Ee.
  - apply (generateNewIdea_value cfg cc usedPrompts w). rewrite E.
    reflexivity.
Qed.

(** Ideas recorded and files written by one iteration. *)
Lemma iteration_records cfg cc cs fault i s :
  records_step cfg 1 s (snd (iteration cfg cc cs fault i (fst s) (snd s))).
Proof.
  unfold records_step. destruct s as [usedPrompts w]. cbn [fst snd].
  destruct (iteration_outcome_holds cfg cc cs fault i usedPrompts w)
    as [o w1 E1 Ho | idea w1 result w2 E1 Ee E2 Hr
        | idea w1 r w2 E1 Ee E2 Ev Ew | idea w1 r w2 E1 Ee E2 Ev Ew];
    cbn [fst snd];
    destruct (generateNewIdea_world _ _ _ _ _ _ E1)
      as [[e1 [Ht1 Hw1]] _];
    try (destruct (generateSVGWithGPT4_world _ _ _ _ _ _ E2)
           as [[e2 [Ht2 Hw2]] _];
         pose proof (generateNewIdea_recorded _ _ _ _ _ _ E1 Ee) as Hrec;
         assert (Hx : written (trace w2) = written (trace w))
           by (rewrite Ht2, written_app, Hw2, Ht1, written_app, Hw1,
                 !app_nil_r; reflexivity)).
  - exists [], []. rewrite !app_nil_r, Ht1, written_app, Hw1, app_nil_r.
    repeat split; try constructor; simpl; lia.
  - exists [idea], []. rewrite pause_after_written, Hx, app_nil_r.
    split; [reflexivity |]. split; [constructor; [exact Hrec | constructor] |].
    split; [reflexivity |]. split; [constructor | simpl; lia].
  - exists [idea], [(svg_path cfg idea, svg r)].
    rewrite pause_after_written. simpl trace. rewrite written_app, Hx.
    split; [reflexivity |]. split; [constructor; [exact Hrec | constructor] |].
    split; [reflexivity |]. split; [| simpl; lia].
    constructor; [| constructor].
    destruct (generateSVGWithGPT4_value cfg cs idea w1 r) as [_ Htrim];
      [rewrite E2; reflexivity |].
    split; [exists idea; split; [exact Hrec | reflexivity] |].
    split; [| exact Htrim].
    unfold validateSVG in Ev. rewrite Htrim in Ev. exact Ev.
  - exists [idea], []. rewrite Hx, app_nil_r.
    split; [reflexivity |]. split; [constructor; [exact Hrec | constructor] |].
    split; [reflexivity |]. split; [constructor | simpl; lia].
Qed.

Lemma records_step_refl cfg s : records_step cfg 0 s s.
Proof.
  exists [], []. rewrite !app_nil_r.
  repeat split; try constructor; simpl; lia.
Qed.

Lemma records_step_trans cfg a b s1 s2 s3 :
  records_step cfg a s1 s2 -> records_step cfg b s2 s3 ->
  records_step cfg (a + b) s1 s3.
Proof.
  intros [a1 [n1 [Hu1 [Hr1 [Hw1 [Hv1 Hl1]]]]]]
         [a2 [n2 [Hu2 [Hr2 [Hw2 [Hv2 Hl2]]]]]].
  exists (a1 ++ a2)%list, (n1 ++ n2)%list.
  rewrite Hu2, Hw2, Hu1, Hw1, <- !app_assoc, !length_app.
  split; [reflexivity |]. split; [apply Forall_app; split; assumption |].
  split; [reflexivity |]. split; [apply Forall_app; split; assumption |].
  lia.
Qed.

Lemma records_step_mono cfg a s1 s2 :
  records_step cfg a s1 s2 -> records_step cfg (S a) s1 s2.
Proof.
  intros [a1 [n1 [Hu1 [Hr1 [Hw1 [Hv1 Hl1]]]]]]. exists a1, n1.
  repeat split; try assumption; lia.
Qed.

(** X2. Every file a run writes is named [<outputFolder>/<name>.svg] after
    a non-empty, trimmed idea, and its content is trimmed and begins with
    "<svg"; a run writes at most [outputCount] files. *)
Theorem run_writes_valid_files :
  forall cfg cc cs fault w,
    exists new,
      written (trace (snd (generateAndSaveSVGs cfg cc cs fault w)))
        = (written (trace w) ++ new)%list
      /\ Forall (valid_artifact_file cfg) new
      /\ (length new <= Z.to_nat (outputCount cfg))%nat.
Proof.
  intros cfg cc cs fault w.
  destruct (generateAndSaveSVGs_graded cfg cc cs fault (records_step cfg)
              (records_step_refl cfg) (records_step_trans cfg)
              (records_step_mono cfg) (iteration_records cfg cc cs fault) w)
    as [s' [-> [added [new [_ [_ [Hw [Hv Hl]]]]]]]].
  exists new. rewrite Hw. cbn [snd]. rewrite ensure_folder_written.
  split; [reflexivity |]. split; [exact Hv | lia].
Qed.

(** X3. The session list only grows, at its end: the main loop leaves the
    ideas it started with in place and appends at most [outputCount] ideas,
    each non-empty and trimmed; it never writes more files than it records
    ideas. *)
Theorem session_list_grows :
  forall cfg cc cs fault usedPrompts w,
    let s' := snd (loop_from cfg cc cs fault 0 (usedPrompts, w)) in
    exists added new,
      fst s' = (usedPrompts ++ added)%list
      /\ Forall recorded_idea added
      /\ written (trace (snd s')) = (written (trace w) ++ new)%list
      /\ (length new <= length added <= Z.to_nat (outputCount cfg))%nat.
Proof.
  intros cfg cc cs fault usedPrompts w. cbv zeta.
  rewrite (loop_from_run cfg cc cs fault (Z.to_nat (outputCount cfg)) 0);
    [| lia | f_equal; lia].
  pose proof (run_iterations_graded cfg cc cs fault (records_step cfg)
                (records_step_refl cfg) (records_step_trans cfg)
                (records_step_mono cfg) (iteration_records cfg cc cs fault)
                (map Z.of_nat (seq (Z.to_nat 0) (Z.to_nat (outputCount cfg))))
                (usedPrompts, w)) as H.
  rewrite length_map, length_seq in H.
  destruct H as [added [new [Hu [Hr [Hw [_ Hl]]]]]].
  exists added, new. repeat split; try assumption; lia.
Qed.

Lemma iteration_calls cfg cc cs fault i s :
  calls_step cfg 1 s (snd (iteration cfg cc cs fault i (fst s) (snd s))).
Proof.
  unfold calls_step. destruct s as [usedPrompts w]. cbn [fst snd].
  destruct (iteration_outcome_holds cfg cc cs fault i usedPrompts w)
    as [o w1 E1 Ho | idea w1 result w2 E1 Ee E2 Hr
        | idea w1 r w2 E1 Ee E2 Ev Ew | idea w1 r w2 E1 Ee E2 Ev Ew];
    cbn [fst snd];
    pose proof (generateNewIdea_calls cfg cc usedPrompts w) as H1;
    rewrite E1 in H1; cbn [snd] in H1;
    try (pose proof (generateSVGWithGPT4_calls cfg cs idea w1) as H2;
         rewrite E2 in H2; cbn [snd] in H2);
    try (destruct (pause_after_world cfg i w2) as [_ [_ [_ ->]]]);
    try (destruct (pause_after_world cfg i
                     (store (svg_path cfg idea) (svg r) w2))
           as [_ [_ [_ ->]]]);
    simpl; lia.
Qed.

(** X4. A run makes at most [2 * outputCount * maxRetries] collaborator
    calls: at most [maxRetries] for the idea and [maxRetries] for the
    artifact in each iteration. *)
Theorem run_call_budget :
  forall cfg cc cs fault w,
    (calls w <= calls (snd (generateAndSaveSVGs cfg cc cs fault w))
     <= calls w
        + 2 * Z.to_nat (outputCount cfg) * Z.to_nat (maxRetries cfg))%nat.
Proof.
  intros cfg cc cs fault w.
  destruct (generateAndSaveSVGs_graded cfg cc cs fault (calls_step cfg)) with (w := w)
    as [s' [-> H]].
  - intros s. unfold calls_step. lia.
  - intros a b s1 s2 s3. unfold calls_step. lia.
  - intros a s1 s2. unfold calls_step. lia.
  - apply iteration_calls.
  - unfold calls_step in H. cbn [snd] in H.
    destruct (ensure_folder_world cfg fault w) as [_ [Hc _]].
    rewrite Hc in H. lia.
Qed.

(** ** Degenerate configurations *)

Lemma iteration_without_attempts cfg cc cs fault i usedPrompts w :
  maxRetries cfg <= 0 ->
  iteration cfg cc cs fault i usedPrompts w = (Normal, (usedPrompts, w)).
Proof.
  intros Hm. unfold iteration, generateNewIdea.
  rewrite (retry_exhausts cfg _ _ false (idea_outcome cc usedPrompts)
             (try_generateNewIdea_shape cc usedPrompts) O 1 w);
    [reflexivity | lia | intros j Hj; lia].
Qed.

Lemma run_iterations_without_attempts cfg cc cs fault l : forall s,
  maxRetries cfg <= 0 -> run_iterations cfg cc cs fault l s = (Normal, s).
Proof.
  induction l as [|i l IH]; intros s Hm; [reflexivity |].
  cbn [run_iterations]. rewrite iteration_without_attempts by exact Hm.
  rewrite IH by exact Hm. destruct s; reflexivity.
Qed.

Lemma run_iterations_degenerate cfg cc cs fault s :
  outputCount cfg <= 0 \/ maxRetries cfg <= 0 ->
  run_iterations cfg cc cs fault (indices (outputCount cfg)) s = (Normal, s).
Proof.
  intros [H | H].
  - unfold indices. replace (Z.to_nat (outputCount cfg)) with O by lia.
    reflexivity.
  - apply run_iterations_without_attempts. exact H.
Qed.

Lemma run_degenerate cfg cc cs fault w :
  outputCount cfg <= 0 \/ maxRetries cfg <= 0 ->
  generateAndSaveSVGs cfg cc cs fault w = ensure_folder cfg fault w.
Proof.
  intros H. rewrite generateAndSaveSVGs_run.
  destruct (ensure_folder cfg fault w) as [[|] w0]; [| reflexivity].
  rewrite run_iterations_degenerate by exact H. reflexivity.
Qed.

(** X5. When [outputCount] or [maxRetries] is zero or negative, a run only
    makes sure the output folder exists: it calls the collaborator never,
    pauses never and writes no file; it creates the folder only when
    nothing exists under that name, and it is left by an exception only
    when that creation fails. *)
Theorem degenerate_run_only_ensures_folder :
  forall cfg cc cs fault w,
    outputCount cfg <= 0 \/ maxRetries cfg <= 0 ->
    let r := generateAndSaveSVGs cfg cc cs fault w in
    calls (snd r) = calls w
    /\ files (snd r) = files w
    /\ trace (snd r)
       = (trace w ++ if existsSync (outputFolder cfg) w then []
                     else if mkdir_ok fault (outputFolder cfg) w
                          then [EvMkdir (outputFolder cfg)] else [])%list
    /\ (fst r = Abrupt
        <-> existsSync (outputFolder cfg) w = false
            /\ mkdir_ok fault (outputFolder cfg) w = false).
Proof.
  intros cfg cc cs fault w H r. unfold r.
  rewrite (run_degenerate _ _ _ _ _ H). unfold ensure_folder, mkdirSync.
  destruct (existsSync (outputFolder cfg) w);
    [| destruct (mkdir_ok fault (outputFolder cfg) w)]; cbn [fst snd].
  - rewrite app_nil_r. repeat split; try reflexivity; try discriminate.
    intros [X _]. discriminate X.
  - repeat split; try reflexivity; try discriminate.
    intros [_ X]. discriminate X.
  - rewrite app_nil_r. repeat split; reflexivity.
Qed.

(** ** The end of a run *)

Lemma iteration_extends cfg cc cs fault i s :
  trace_step s (snd (iteration cfg cc cs fault i (fst s) (snd s))).
Proof.
  unfold trace_step. destruct s as [usedPrompts w]. cbn [fst snd].
  destruct (iteration_outcome_holds cfg cc cs fault i usedPrompts w)
    as [o w1 E1 Ho | idea w1 result w2 E1 Ee E2 Hr
        | idea w1 r w2 E1 Ee E2 Ev Ew | idea w1 r w2 E1 Ee E2 Ev Ew];
    cbn [fst snd];
    destruct (generateNewIdea_world _ _ _ _ _ _ E1) as [[e1 [Ht1 _]] _];
    try (destruct (generateSVGWithGPT4_world _ _ _ _ _ _ E2)
           as [[e2 [Ht2 _]] _]);
    try (destruct (pause_after_world cfg i w2) as [-> _]);
    try (destruct (pause_after_world cfg i
                     (store (svg_path cfg idea) (svg r) w2))
           as [-> _]);
    simpl; rewrite ?Ht2, Ht1, <- ?app_assoc; eexists; reflexivity.
Qed.

Lemma run_iterations_extends cfg cc cs fault l s :
  trace_step s (snd (run_iterations cfg cc cs fault l s)).
Proof.
  apply (run_iterations_graded cfg cc cs fault (fun _ => trace_step)).
  - intros s0. exists []. rewrite app_nil_r. reflexivity.
  - intros _ _ s1 s2 s3 [e1 H1] [e2 H2]. exists (e1 ++ e2)%list.
    rewrite H2, H1, <- app_assoc. reflexivity.
  - intros _ s1 s2 H. exact H.
  - apply iteration_extends.
Qed.

Lemma generateNewIdea_last_event cfg cc usedPrompts w :
  1 <= maxRetries cfg ->
  exists pre,
    trace (snd (generateNewIdea cfg cc usedPrompts w))
    = (trace w ++ pre ++ [EvCreate false])%list.
Proof.
  intros Hm. unfold generateNewIdea.
  destruct (retry_from_last_event cfg _ _ false (idea_outcome cc usedPrompts)
              (try_generateNewIdea_shape cc usedPrompts)
              (Z.to_nat (maxRetries cfg + 1 - 1)) 1 w eq_refl)
    as [evs [Ht [[Hz _] | [pre Hpre]]]]; [lia |].
  exists pre. rewrite Ht, Hpre. reflexivity.
Qed.

Lemma generateSVGWithGPT4_last_event cfg cs desc w :
  1 <= maxRetries cfg ->
  exists pre,
    trace (snd (generateSVGWithGPT4 cfg cs desc w))
    = (trace w ++ pre ++ [EvCreate true])%list.
Proof.
  intros Hm. unfold generateSVGWithGPT4.
  destruct (retry_from_last_event cfg _ _ true (svg_outcome cs desc)
              (try_generateSVG_shape cs desc)
              (Z.to_nat (maxRetries cfg + 1 - 1)) 1 w eq_refl)
    as [evs [Ht [[Hz _] | [pre Hpre]]]]; [lia |].
  exists pre. rewrite Ht, Hpre. reflexivity.
Qed.

(** A result can only come from an attempt. *)
Lemma generateSVGWithGPT4_attempted cfg cs desc w r w2 :
  generateSVGWithGPT4 cfg cs desc w = (Some r, w2) -> 1 <= maxRetries cfg.
Proof.
  intros E.
  pose proof (retry_from_result cfg _ _ true (svg_outcome cs desc)
                (try_generateSVG_shape cs desc)
                (Z.to_nat (maxRetries cfg + 1 - 1)) 1 w eq_refl) as R.
  unfold generateSVGWithGPT4 in E. rewrite E in R. cbn [fst] in R.
  destruct R as [k [Hk _]]. lia.
Qed.

(** An iteration left by an exception ends with the artifact call. *)
Lemma iteration_abrupt_last cfg cc cs fault i usedPrompts w :
  fst (iteration cfg cc cs fault i usedPrompts w) = Abrupt ->
  exists pre,
    trace (snd (snd (iteration cfg cc cs fault i usedPrompts w)))
    = (trace w ++ pre ++ [EvCreate true])%list.
Proof.
  destruct (iteration_outcome_holds cfg cc cs fault i usedPrompts w)
    as [o w1 E1 Ho | idea w1 result w2 E1 Ee E2 Hr
        | idea w1 r w2 E1 Ee E2 Ev Ew | idea w1 r w2 E1 Ee E2 Ev Ew];
    cbn [fst snd]; try discriminate.
  intros _.
  destruct (generateNewIdea_world _ _ _ _ _ _ E1) as [[e1 [Ht1 _]] _].
  destruct (generateSVGWithGPT4_last_event cfg cs idea w1
              (generateSVGWithGPT4_attempted _ _ _ _ _ _ E2)) as [p2 H2].
  rewrite E2 in H2. cbn [snd] in H2.
  exists (e1 ++ p2)%list. rewrite H2, Ht1, <- !app_assoc. reflexivity.
Qed.

(** The last iteration adds events, and the last of them is not a pause. *)
Lemma last_iteration_ends_active cfg cc cs fault i usedPrompts w :
  1 <= maxRetries cfg ->
  outputCount cfg - 1 <= i ->
  exists pre e,
    trace (snd (snd (iteration cfg cc cs fault i usedPrompts w)))
    = (trace w ++ pre ++ [e])%list
    /\ is_pause e = false.
Proof.
  intros Hm Hi.
  assert (Hp : forall w0, pause_after cfg i w0 = w0).
  { intros w0. unfold pause_after.
    destruct (Z.ltb_spec i (outputCount cfg - 1)); [lia | reflexivity]. }
  destruct (generateNewIdea_last_event cfg cc usedPrompts w Hm) as [p1 H1].
  destruct (iteration_outcome_holds cfg cc cs fault i usedPrompts w)
    as [o w1 E1 Ho | idea w1 result w2 E1 Ee E2 Hr
        | idea w1 r w2 E1 Ee E2 Ev Ew | idea w1 r w2 E1 Ee E2 Ev Ew];
    cbn [fst snd]; rewrite E1 in H1; cbn [snd] in H1;
    try (destruct (generateSVGWithGPT4_last_event cfg cs idea w1 Hm)
           as [p2 H2];
         rewrite E2 in H2; cbn [snd] in H2);
    rewrite ?Hp.
  - exists p1, (EvCreate false). split; [exact H1 | reflexivity].
  - exists ((p1 ++ [EvCreate false]) ++ p2)%list, (EvCreate true).
    rewrite H2, H1, <- !app_assoc. split; reflexivity.
  - exists ((p1 ++ [EvCreate false]) ++ p2 ++ [EvCreate true])%list,
      (EvWriteFile (svg_path cfg idea) (svg r)).
    simpl. rewrite H2, H1, <- !app_assoc. split; reflexivity.
  - exists ((p1 ++ [EvCreate false]) ++ p2)%list, (EvCreate true).
    rewrite H2, H1, <- !app_assoc. split; reflexivity.
Qed.

(** A run left by an exception in an iteration ends with that iteration's
    artifact call. *)
Lemma run_iterations_abrupt_last cfg cc cs fault l : forall s,
  fst (run_iterations cfg cc cs fault l s) = Abrupt ->
  exists pre e,
    trace (snd (snd (run_iterations cfg cc cs fault l s)))
    = (trace (snd s) ++ pre ++ [e])%list
    /\ is_pause e = false.
Proof.
  induction l as [|i l IH]; intros s H; [discriminate H |].
  cbn [run_iterations] in H |- *.
  pose proof (iteration_abrupt_last cfg cc cs fault i (fst s) (snd s)) as Ha.
  destruct (iteration_extends cfg cc cs fault i s) as [e1 H1].
  destruct (iteration cfg cc cs fault i (fst s) (snd s)) as [[|] s1];
    cbn [fst snd] in *.
  - destruct (IH s1 H) as [pre [e [Ht He]]].
    exists (e1 ++ pre)%list, e. rewrite Ht, H1, <- !app_assoc.
    split; [reflexivity | exact He].
  - destruct (Ha eq_refl) as [pre Hpre].
    exists pre, (EvCreate true). split; [exact Hpre | reflexivity].
Qed.

(** X6. A run never ends on a wait: the events it adds, if any, end with
    a collaborator call, a file write or the creation of the folder, never
    with a suspension (neither the pacing pause nor a retry delay). *)
Theorem run_never_ends_with_pause :
  forall cfg cc cs fault w,
    exists evs,
      trace (snd (generateAndSaveSVGs cfg cc cs fault w))
        = (trace w ++ evs)%list
      /\ ends_active evs.
Proof.
  intros cfg cc cs fault w.
  assert (Hfolder : forall e0,
            e0 = [] \/ e0 = [EvMkdir (outputFolder cfg)] -> ends_active e0).
  { intros e0 [-> | ->]; [left; reflexivity |].
    right. exists [], (EvMkdir (outputFolder cfg)). split; reflexivity. }
  assert (Hafter : forall e0 pre e, is_pause e = false ->
            ends_active (e0 ++ pre ++ [e])%list).
  { intros e0 pre e He. right. exists (e0 ++ pre)%list, e.
    rewrite <- app_assoc. split; [reflexivity | exact He]. }
  rewrite generateAndSaveSVGs_run.
  destruct (ensure_folder_world cfg fault w) as [[e0 [H0 He0]] _].
  destruct (ensure_folder cfg fault w) as [[|] w0]; cbn [fst snd] in *;
    [| exists e0; split; [exact H0 | apply Hfolder; exact He0]].
  destruct (fst (run_iterations cfg cc cs fault (indices (outputCount cfg))
                   ([], w0))) eqn:Hend.
  2:{ destruct (run_iterations_abrupt_last cfg cc cs fault _ _ Hend)
        as [pre [e [Ht He]]].
      exists (e0 ++ pre ++ [e])%list. cbn [snd] in Ht.
      rewrite Ht, H0, <- !app_assoc.
      split; [reflexivity | apply Hafter; exact He]. }
  destruct (Z_le_gt_dec (outputCount cfg) 0) as [HN | HN];
    [| destruct (Z_le_gt_dec (maxRetries cfg) 0) as [Hm | Hm]].
  1,2: rewrite run_iterations_degenerate by (left + right; assumption);
       exists e0; split; [exact H0 | apply Hfolder; exact He0].
  unfold indices in *.
  destruct (Z.to_nat (outputCount cfg)) as [|n] eqn:En; [lia |].
  rewrite seq_S, map_app in *.
  change (map Z.of_nat [(0 + n)%nat]) with [Z.of_nat (0 + n)] in *.
  rewrite run_iterations_snoc in *.
  destruct (run_iterations_extends cfg cc cs fault (map Z.of_nat (seq 0 n))
              ([], w0)) as [e1 H1].
  destruct (run_iterations cfg cc cs fault (map Z.of_nat (seq 0 n))
              ([], w0)) as [[|] s1]; [| discriminate Hend].
  cbn [snd] in H1.
  destruct (last_iteration_ends_active cfg cc cs fault (Z.of_nat (0 + n))
              (fst s1) (snd s1)) as [pre [e [H2 He]]]; [lia | lia |].
  exists (e0 ++ (e1 ++ pre) ++ [e])%list.
  rewrite H2, H1, H0, <- !app_assoc.
  split; [reflexivity |].
  replace (e0 ++ e1 ++ pre ++ [e])%list with (e0 ++ (e1 ++ pre) ++ [e])%list
    by (rewrite <- !app_assoc; reflexivity).
  apply Hafter. exact He.
Qed.

(** ** The file system *)

Lemma fs_step_refl cfg w : fs_step cfg w w.
Proof. split; [reflexivity | intros p; left; reflexivity]. Qed.

Lemma fs_step_trans cfg w1 w2 w3 :
  fs_step cfg w1 w2 -> fs_step cfg w2 w3 -> fs_step cfg w1 w3.
Proof.
  intros [Hd1 Hf1] [Hd2 Hf2]. split; [rewrite Hd2; exact Hd1 |].
  intros p. destruct (Hf2 p) as [E2 | R2]; [| right; exact R2].
  destruct (Hf1 p) as [E1 | [Hp Hs]].
  - left. rewrite E2. exact E1.
  - right. split; [exact Hp | rewrite E2; exact Hs].
Qed.

Lemma iteration_fs_step cfg cc cs fault i s :
  fs_step cfg (snd s) (snd (snd (iteration cfg cc cs fault i (fst s) (snd s)))).
Proof.
  destruct s as [usedPrompts w]. cbn [fst snd]. split;
    [apply iteration_dirs |].
  intros p.
  destruct (iteration_written cfg cc cs fault i usedPrompts w)
    as [[_ Hf] | [idea [w1 [res [w2 [_ [_ [_ [_ [_ [_ [_ Hf]]]]]]]]]]]];
    cbv zeta in Hf; rewrite Hf; [left; reflexivity |].
  destruct (decide (p = svg_path cfg idea)) as [-> | Hne].
  - right. split; [exists idea; reflexivity |].
    rewrite lookup_insert_eq. eexists. reflexivity.
  - left. apply lookup_insert_ne. congruence.
Qed.

(** X7. A run leaves the rest of the file system alone: it removes no
    file and no directory, it changes only files at paths of the form
    [<outputFolder>/<sanitized idea>.svg], and when it returns normally
    something exists under the name of the output folder. *)
Theorem run_touches_only_artifact_files :
  forall cfg cc cs fault w,
    let r := generateAndSaveSVGs cfg cc cs fault w in
    (forall p, (forall idea, p <> svg_path cfg idea) ->
               files (snd r) !! p = files w !! p)
    /\ (forall p, is_Some (files w !! p) -> is_Some (files (snd r) !! p))
    /\ dirs w ⊆ dirs (snd r)
    /\ match fst r with
       | Normal => existsSync (outputFolder cfg) (snd r) = true
       | Abrupt => True
       end.
Proof.
  intros cfg cc cs fault w r.
  destruct (generateAndSaveSVGs_graded cfg cc cs fault
              (fun _ s s' => fs_step cfg (snd s) (snd s'))) with (w := w)
    as [s' [Hs [Hd Hf]]].
  { intros s. apply fs_step_refl. }
  { intros _ _ s1 s2 s3. apply fs_step_trans. }
  { intros _ s1 s2 H. exact H. }
  { apply iteration_fs_step. }
  cbn [snd] in Hd, Hf. fold r in Hs. rewrite <- Hs in Hd, Hf.
  destruct (ensure_folder_world cfg fault w) as [_ [_ [Hfiles Hdirs]]].
  assert (Hkeep : forall p, is_Some (files w !! p) ->
                            is_Some (files (snd r) !! p)).
  { intros p Hp. destruct (Hf p) as [E | [_ Hsome]]; [| exact Hsome].
    rewrite E, Hfiles. exact Hp. }
  split; [| split; [exact Hkeep | split]].
  - intros p Hp. destruct (Hf p) as [E | [[idea Hi] _]].
    + rewrite E, Hfiles. reflexivity.
    + exfalso. exact (Hp idea Hi).
  - rewrite Hd. exact Hdirs.
  - destruct (fst r) eqn:Hend; [| exact I].
    unfold existsSync. rewrite Hd. apply orb_true_iff.
    unfold r in Hend. rewrite generateAndSaveSVGs_run in Hend.
    unfold ensure_folder, mkdirSync in *.
    destruct (existsSync (outputFolder cfg) w) eqn:E.
    + unfold existsSync in E. apply orb_true_iff in E.
      destruct E as [E | E]; [left; exact E | right].
      apply bool_decide_eq_true. apply Hkeep.
      apply bool_decide_eq_true in E. exact E.
    + destruct (mkdir_ok fault (outputFolder cfg) w);
        [| discriminate Hend].
      left. apply bool_decide_eq_true. simpl.
      apply elem_of_union_l, elem_of_singleton_2. reflexivity.
Qed.
(** ** Streams that do not end with a finish signal *)

(** X8. Edge cases of the accumulator, after any number of fragments that
    do not signal the end: a stream that simply ends yields all the text
    received; an exception raised by the stream, or a chunk without any
    choice, makes the attempt fail whatever was accumulated, and leaves the
    rest of the stream unread. *)
Theorem accumulate_edge_cases :
  forall acc pre post,
    forallb continues pre = true ->
    accumulate acc (map Yield pre)
      = (Some (acc ++ concat_text pre)%string, [])
    /\ accumulate acc (map Yield pre ++ Raise :: post) = (None, post)
    /\ accumulate acc (map Yield pre ++ Yield {| chunk_choices := [] |} :: post)
       = (None, post).
Proof.
  intros acc pre post Hpre. split; [| split].
  - rewrite <- (app_nil_r (map Yield pre)).
    rewrite accumulate_prefix by exact Hpre. reflexivity.
  - rewrite accumulate_prefix by exact Hpre. reflexivity.
  - rewrite accumulate_prefix by exact Hpre. reflexivity.
Qed.

(** X9. A streamed response that ends without a finish signal counts as a
    complete answer: the first attempt returns the trimmed text of all its
    fragments, and no further attempt is made. *)
Theorem unfinished_stream_is_accepted :
  forall cfg cs desc w pre,
    1 <= maxRetries cfg ->
    cs (calls w) desc = Some (map Yield pre) ->
    forallb continues pre = true ->
    generateSVGWithGPT4 cfg cs desc w
    = (Some {| description := desc;
               svg := JsString.trim (concat_text pre) |},
       call true w).
Proof.
  intros cfg cs desc w pre Hm Hcs Hpre. unfold generateSVGWithGPT4.
  apply (retry_succeeds_after cfg _ _ true (svg_outcome cs desc)
           (try_generateSVG_shape cs desc) O 1 w).
  - intros j Hj. lia.
  - rewrite Nat.add_0_r. unfold svg_outcome. rewrite Hcs.
    rewrite <- (app_nil_r (map Yield pre)).
    rewrite accumulate_prefix by exact Hpre. reflexivity.
  - lia.
Qed.

(** ** More on file names *)

Lemma sanitize_char_idempotent c :
  sanitize_char (sanitize_char c) = sanitize_char c
  /\ JsString.lower_char (sanitize_char c) = sanitize_char c
  /\ sanitize_char (lower_ascii_letter c) = sanitize_char c.
Proof.
  destruct c as [[] [] [] [] [] [] [] []]; vm_compute;
    repeat split; reflexivity.
Qed.

(** X10. Sanitising is idempotent, its result is already in lower case,
    and it is blind to the case of ASCII letters: a sanitised name is left
    as it is by [sanitizeFilename] and by [toLowerCase], and lowercasing
    the ASCII letters of an idea first does not change its file name. *)
Theorem sanitizeFilename_idempotent :
  forall s,
    sanitizeFilename (sanitizeFilename s) = sanitizeFilename s
    /\ JsString.toLowerCase (sanitizeFilename s) = sanitizeFilename s
    /\ sanitizeFilename (JsString.map_chars lower_ascii_letter s)
       = sanitizeFilename s.
Proof.
  intros s. unfold JsString.toLowerCase. rewrite !sanitizeFilename_map.
  rewrite !map_chars_map_chars.
  repeat split; apply map_chars_ext; intros c; apply sanitize_char_idempotent.
Qed.

Lemma string_app_inv_head (p a b : string) :
  (p ++ a)%string = (p ++ b)%string -> a = b.
Proof.
  induction p as [|c p IH]; intros H; [exact H |].
  apply IH.
  change (String c (p ++ a) = String c (p ++ b)) in H.
  injection H as H. exact H.
Qed.



(** ** JSON text *)

Lemma count_char_app c a b :
  count_char c (a ++ b) = (count_char c a + count_char c b)%nat.
Proof.
  induction a as [|x a IH]; [reflexivity |].
  change (String x a ++ b)%string with (String x (a ++ b)).
  cbn [count_char]. rewrite IH. lia.
Qed.

Lemma all_chars_app p a b :
  JsString.all_chars p (a ++ b)
  = JsString.all_chars p a && JsString.all_chars p b.
Proof.
  induction a as [|x a IH]; [reflexivity |].
  change (String x a ++ b)%string with (String x (a ++ b)).
  cbn [JsString.all_chars]. rewrite IH, andb_assoc. reflexivity.
Qed.

Lemma escape_char_facts c :
  count_char newline (Json.escape_char c) = O
  /\ JsString.all_chars no_control (Json.escape_char c) = true.
Proof.
  destruct c as [[] [] [] [] [] [] [] []]; vm_compute; split; reflexivity.
Qed.

Lemma unescape_escape_char c rest :
  Json.unescape (Json.escape_char c ++ rest)
  = String c (Json.unescape rest).
Proof.
  destruct c as [[] [] [] [] [] [] [] []]; reflexivity.
Qed.

Lemma escape_single_line s : single_line (Json.escape s).
Proof.
  unfold single_line. induction s as [|c s IH]; [reflexivity |].
  cbn [Json.escape]. rewrite count_char_app, IH.
  destruct (escape_char_facts c) as [-> _]. reflexivity.
Qed.

Lemma string_app_inv_tail (a b c : string) :
  (a ++ c)%string = (b ++ c)%string -> a = b.
Proof.
  intros H.
  assert (E : NodePath.strip_suffix c (a ++ c)
              = NodePath.strip_suffix c (b ++ c)) by (rewrite H; reflexivity).
  rewrite !strip_suffix_app in E. injection E as E. exact E.
Qed.

(** X13. The JSON escaping applied to descriptions and artifacts loses
    nothing and yields no control character: the text can be read back
    unchanged, so distinct strings have distinct JSON literals, and line
    feeds, tabs and the like never appear raw in the output. *)
Theorem json_escape_roundtrip :
  forall s t,
    Json.unescape (Json.escape s) = s
    /\ JsString.all_chars no_control (Json.escape s) = true
    /\ (Json.quote s = Json.quote t <-> s = t).
Proof.
  intros s t.
  assert (R : forall x, Json.unescape (Json.escape x) = x).
  { induction x as [|c x IH]; [reflexivity |].
    cbn [Json.escape]. rewrite unescape_escape_char, IH. reflexivity. }
  split; [apply R |]. split.
  - induction s as [|c s IH]; [reflexivity |].
    cbn [Json.escape]. rewrite all_chars_app, IH.
    destruct (escape_char_facts c) as [_ ->]. reflexivity.
  - split; [| intros ->; reflexivity].
    unfold Json.quote, in_quotes. intros H. injection H as H.
    apply string_app_inv_tail in H.
    rewrite <- (R s), <- (R t), H. reflexivity.
Qed.

Lemma quote_single_line s : single_line (Json.quote s).
Proof.
  unfold single_line, Json.quote, in_quotes. cbn [count_char].
  rewrite count_char_app, escape_single_line. reflexivity.
Qed.

Lemma message_single_line role body : single_line (Json.message role body).
Proof.
  unfold single_line, Json.message.
  rewrite !count_char_app, !quote_single_line. reflexivity.
Qed.

Lemma jsonl_record_single_line d svg : single_line (jsonl_record d svg).
Proof.
  unfold single_line, jsonl_record.
  rewrite !count_char_app, !message_single_line, quote_single_line.
  reflexivity.
Qed.

Lemma join_newline_count lines :
  Forall single_line lines ->
  count_char newline (join (String newline "") lines) = pred (length lines).
Proof.
  induction lines as [|x l IH]; intros H; [reflexivity |].
  inversion H as [|? ? Hx Hl]; subst.
  destruct l as [|y l]; [exact Hx |].
  change (join (String newline "") (x :: y :: l))
    with (x ++ String newline "" ++ join (String newline "") (y :: l))%string.
  rewrite !count_char_app, Hx, (IH Hl). reflexivity.
Qed.

(** ** Prompts *)

Lemma occurs_in_self p : occurs_in p p.
Proof.
  exists ""%string, ""%string. rewrite string_app_nil_r. reflexivity.
Qed.

Lemma occurs_in_app_r p u s : occurs_in p s -> occurs_in p (u ++ s)%string.
Proof.
  intros [a [b ->]]. exists (u ++ a)%string, b.
  rewrite !string_app_assoc. reflexivity.
Qed.

Lemma occurs_in_app_l p s v : occurs_in p s -> occurs_in p (s ++ v)%string.
Proof.
  intros [a [b ->]]. exists a, (b ++ v)%string.
  rewrite !string_app_assoc. reflexivity.
Qed.

Lemma occurs_in_String p c s : occurs_in p s -> occurs_in p (String c s).
Proof. intros H. apply (occurs_in_app_r p (String c "") s H). Qed.

Lemma join_cons sep x y l :
  join sep (x :: y :: l) = (x ++ sep ++ join sep (y :: l))%string.
Proof. reflexivity. Qed.

Lemma join_occurs sep l p : In p l -> occurs_in p (join sep l).
Proof.
  induction l as [|x l IH]; intros Hin; [destruct Hin |].
  destruct l as [|y l].
  - destruct Hin as [-> | []]. apply occurs_in_self.
  - rewrite join_cons. destruct Hin as [-> | Hin].
    + apply occurs_in_app_l, occurs_in_self.
    + apply occurs_in_app_r, occurs_in_app_r, IH. exact Hin.
Qed.

(** Two neighbours of the array are joined by exactly one separator. *)
Lemma join_neighbours sep l1 a b l2 :
  occurs_in (a ++ sep ++ b) (join sep (l1 ++ a :: b :: l2)).
Proof.
  induction l1 as [|x l1 IH].
  - cbn [app]. rewrite join_cons.
    destruct l2 as [|y l2].
    + apply occurs_in_self.
    + rewrite join_cons.
      exists ""%string, (sep ++ join sep (y :: l2))%string.
      cbn [String.append]. rewrite !string_app_assoc. reflexivity.
  - cbn [app].
    destruct (l1 ++ a :: b :: l2)%list as [|y l] eqn:E;
      [destruct l1; discriminate E |].
    rewrite join_cons. apply occurs_in_app_r, occurs_in_app_r. exact IH.
Qed.

Lemma prompt_shape_aux (A Q B1 B2 J C : string) (nl : ascii) :
  (A ++ Q ++ "." ++ String nl ((B1 ++ B2) ++ J ++ "." ++ String nl C))%string
  = ((A ++ Q ++ "." ++ String nl B1) ++ B2 ++ J ++ "." ++ String nl C)%string.
Proof.
  rewrite !string_app_assoc. reflexivity.
Qed.

Lemma generateIdeaPrompt_shape d :
  exists pre post,
    forall usedPrompts,
      generateIdeaPrompt d usedPrompts
      = (pre ++ "already generated ideas: " ++ join ", " usedPrompts
         ++ "." ++ post)%string.
Proof.
  exists
    ("Generate a new, unique idea for a simple SVG image based on this prompt: "
     ++ in_quotes (generateRandomPrompt d) ++ "."
     ++ String newline "The idea should be different from these ")%string,
    (String newline
       ("The idea should be described in a single sentence."
        ++ String newline
             "Only return the new idea, without any additional explanation."))%string.
  intros usedPrompts.
  exact (prompt_shape_aux
           "Generate a new, unique idea for a simple SVG image based on this prompt: "
           (in_quotes (generateRandomPrompt d))
           "The idea should be different from these "
           "already generated ideas: "
           (join ", " usedPrompts)
           ("The idea should be described in a single sentence."
            ++ String newline
                 "Only return the new idea, without any additional explanation.")
           newline).
Qed.

Lemma in_quotes_inj (A T d1 d2 : string) :
  (A ++ in_quotes d1 ++ T)%string = (A ++ in_quotes d2 ++ T)%string ->
  d1 = d2.
Proof.
  intros H. apply string_app_inv_head in H.
  apply string_app_inv_tail in H.
  unfold in_quotes in H. injection H as H.
  exact (string_app_inv_tail _ _ _ H).
Qed.

Lemma generateSVGPrompt_inj d1 d2 :
  generateSVGPrompt d1 = generateSVGPrompt d2 -> d1 = d2.
Proof.
  exact (in_quotes_inj
           "Generate SVG code for the following description: " _ d1 d2).
Qed.

(** X12. The idea prompt lists the ideas used so far after the words
    "already generated ideas: ", in their order, separated by ", " and
    closed by a full stop, whatever the random draws: every used idea
    occurs in it, two neighbours [a], [b] of the list occur as "a, b", a
    single idea [p] as "already generated ideas: p." and the empty list
    as "already generated ideas: .".  Distinct descriptions give distinct
    artifact prompts. *)
Theorem prompts_carry_their_inputs :
  forall d l1 a b l2 p description1 description2,
    let usedPrompts := (l1 ++ a :: b :: l2)%list in
    (exists pre post,
       forall used,
         generateIdeaPrompt d used
         = (pre ++ "already generated ideas: " ++ join ", " used
            ++ "." ++ post)%string)
    /\ (forall used q, In q used -> occurs_in q (generateIdeaPrompt d used))
    /\ occurs_in (a ++ ", " ++ b) (generateIdeaPrompt d usedPrompts)
    /\ occurs_in a (generateIdeaPrompt d usedPrompts)
    /\ occurs_in b (generateIdeaPrompt d usedPrompts)
    /\ occurs_in ("already generated ideas: " ++ p ++ ".")
         (generateIdeaPrompt d [p])
    /\ occurs_in "already generated ideas: ." (generateIdeaPrompt d [])
    /\ (generateSVGPrompt description1 = generateSVGPrompt description2
        <-> description1 = description2).
Proof.
  intros d l1 a b l2 p description1 description2 usedPrompts.
  destruct (generateIdeaPrompt_shape d) as [pre [post Hshape]].
  split; [exists pre, post; exact Hshape |].
  assert (Hin : forall q used, occurs_in q (join ", " used) ->
                  occurs_in q (generateIdeaPrompt d used)).
  { intros q used H. rewrite Hshape.
    apply occurs_in_app_r, occurs_in_app_r, occurs_in_app_l. exact H. }
  split; [intros used q Hq; apply Hin, join_occurs; exact Hq |].
  split; [apply Hin, join_neighbours |].
  split; [apply Hin, join_occurs, in_or_app; right; left; reflexivity |].
  split; [apply Hin, join_occurs, in_or_app; right; right; left; reflexivity |].
  split; [| split; [| split; [apply generateSVGPrompt_inj | intros ->; reflexivity]]].
  - rewrite Hshape. apply occurs_in_app_r.
    exists ""%string, post. cbn [join String.append].
    rewrite !string_app_assoc. reflexivity.
  - rewrite Hshape. apply occurs_in_app_r.
    exists ""%string, post. reflexivity.
Qed.

(** ** Stage 2 *)

Lemma map_files_Some fault w entries : forall lines,
  map_files fault w entries = Some lines ->
  Forall2
    (fun file line =>
       exists svg,
         readFileSync fault (NodePath.join inputFolder file) w = Some svg
         /\ line = jsonl_record (description_of_file file) svg)
    entries lines.
Proof.
  induction entries as [|file rest IH]; intros lines H; simpl in H.
  - injection H as <-. constructor.
  - unfold record_of_file in H.
    destruct (readFileSync fault (NodePath.join inputFolder file) w)
      as [svg|] eqn:E; [| discriminate].
    destruct (map_files fault w rest) as [ls|]; [| discriminate].
    injection H as <-. constructor; [| apply IH; reflexivity].
    exists svg. split; [exact E | reflexivity].
Qed.



Lemma readdirSync_cases fault path w :
  match readdirSync fault path w with
  | Some entries =>
      entries = folder_entries path w
      /\ path ∈ dirs w /\ fault w (OpReaddir path) = false
  | None => path ∉ dirs w \/ fault w (OpReaddir path) = true
  end.
Proof.
  unfold readdirSync. destruct (decide (path ∈ dirs w)) as [Hin | Hout].
  - rewrite (bool_decide_eq_true_2 _ Hin).
    destruct (fault w (OpReaddir path)); cbn [andb negb].
    + right. reflexivity.
    + repeat split; [exact Hin].
  - rewrite (bool_decide_eq_false_2 _ Hout). left. exact Hout.
Qed.

Lemma generateJSONL_Normal fault w w' :
  generateJSONL fault w = (Normal, w') ->
  exists lines,
    map_files fault w (folder_entries inputFolder w) = Some lines
    /\ w' = store outputFile (join (String newline "") lines) w.
Proof.
  intros H. unfold generateJSONL in H.
  pose proof (readdirSync_cases fault inputFolder w) as Hdir.
  destruct (readdirSync fault inputFolder w) as [es|]; [| discriminate].
  destruct Hdir as [-> _].
  destruct (map_files fault w (folder_entries inputFolder w)) as [lines|];
    [| discriminate].
  unfold writeFileSync in H.
  destruct (write_ok fault outputFile (join (String newline "") lines) w);
    [| discriminate].
  injection H as <-. exists lines. split; reflexivity.
Qed.

(** X14. The file stage 2 writes is line-delimited: it holds one record per
    entry of the input folder, in the order of the listing, each on a
    single line whatever line feeds the artifact or the file name
    contains, and the lines are separated by single line feeds with none
    after the last. *)
Theorem jsonl_has_one_line_per_entry :
  forall fault w w',
    generateJSONL fault w = (Normal, w') ->
    let entries := folder_entries inputFolder w in
    exists lines,
      files w' !! outputFile = Some (join (String newline "") lines)
      /\ (fault w' (OpRead outputFile) = false ->
          readFileSync fault outputFile w'
          = Some (join (String newline "") lines))
      /\ Forall2
           (fun file line =>
              exists svg,
                readFileSync fault (NodePath.join inputFolder file) w
                = Some svg
                /\ line = jsonl_record (description_of_file file) svg)
           entries lines
      /\ Forall single_line lines
      /\ count_char newline (join (String newline "") lines)
         = pred (length entries).
Proof.
  intros fault w w' H entries.
  destruct (generateJSONL_Normal fault w w' H) as [lines [E ->]].
  fold entries in E. exists lines.
  pose proof (map_files_Some fault w entries lines E) as F.
  assert (S : Forall single_line lines).
  { clear E H. induction F as [|file line es ls [svg [_ ->]] _ IH].
    - constructor.
    - constructor; [apply jsonl_record_single_line | exact IH]. }
  assert (L : files (store outputFile (join (String newline "") lines) w)
                !! outputFile = Some (join (String newline "") lines))
    by (simpl; apply lookup_insert_eq).
  split; [exact L |].
  split; [intros Hf; unfold readFileSync; rewrite Hf; exact L |].
  split; [exact F |]. split; [exact S |].
  rewrite join_newline_count by exact S.
  rewrite (Forall2_length _ _ _ F). reflexivity.
Qed.


Lemma strip_suffix_sound ext s : forall p,
  NodePath.strip_suffix ext s = Some p -> s = (p ++ ext)%string.
Proof.
  induction s as [|c s IH]; intros p H.
  - cbn [NodePath.strip_suffix] in H.
    destruct (String.eqb_spec "" ext) as [E | _]; [| discriminate].
    injection H as <-. exact E.
  - cbn [NodePath.strip_suffix] in H.
    destruct (String.eqb_spec (String c s) ext) as [E | _].
    + injection H as <-. exact E.
    + destruct (NodePath.strip_suffix ext s) as [q|]; [| discriminate].
      injection H as <-. rewrite (IH q eq_refl). reflexivity.
Qed.

Lemma replace_underscores_facts s :
  count_char "_" (JsString.replace_underscores s) = O
  /\ String.length (JsString.replace_underscores s) = String.length s.
Proof.
  unfold JsString.replace_underscores.
  split; [| apply map_chars_length].
  induction s as [|c s IH]; [reflexivity |].
  cbn [JsString.map_chars count_char]. rewrite IH.
  destruct (Ascii.eqb_spec c "_") as [-> | Hne]; [reflexivity |].
  destruct (Ascii.eqb_spec c "_"); [contradiction | reflexivity].
Qed.

(** X16. The description derived from a file name never contains an
    underscore.  Only a final ".svg" is removed: a directory entry with
    another extension is converted too, and keeps its full name in the
    description. *)
Theorem description_of_file_cases :
  forall file,
    count_char "_" (description_of_file file) = O
    /\ match NodePath.strip_suffix ".svg" file with
       | Some stem =>
           file = (stem ++ ".svg")%string
           /\ description_of_file file = JsString.replace_underscores stem
       | None =>
           description_of_file file = JsString.replace_underscores file
           /\ String.length (description_of_file file) = String.length file
       end.
Proof.
  intros file. split; [apply replace_underscores_facts |].
  unfold description_of_file, NodePath.basename. cbn [JsString.is_empty].
  destruct (NodePath.strip_suffix ".svg" file) as [stem|] eqn:E.
  - split; [apply strip_suffix_sound; exact E | reflexivity].
  - split; [reflexivity | apply replace_underscores_facts].
Qed.

Lemma description_of_entry_name idea :
  description_of_file (svg_entry_name idea)
  = JsString.map_chars describe_char idea.
Proof.
  unfold description_of_file, svg_entry_name.
  rewrite basename_entry_name, sanitizeFilename_map.
  unfold JsString.replace_underscores. rewrite map_chars_map_chars.
  apply map_chars_ext. intros c. apply describe_char_spec.
Qed.

Lemma strip_prefix_app p s : NodePath.strip_prefix p (p ++ s) = Some s.
Proof.
  induction p as [|c p IH]; [reflexivity |].
  change (NodePath.strip_prefix (String c p) (String c (p ++ s)) = Some s).
  cbn [NodePath.strip_prefix]. rewrite Ascii.eqb_refl. exact IH.
Qed.

Lemma entry_name_join folder name :
  JsString.is_empty name = false ->
  JsString.all_chars not_slash name = true ->
  entry_name folder (NodePath.join folder name) = Some name.
Proof.
  intros Hne Hns. unfold entry_name, NodePath.join.
  rewrite <- string_app_assoc, strip_prefix_app, Hne, Hns. reflexivity.
Qed.

Lemma folder_entries_In folder w name :
  In name (folder_entries folder w)
  <-> exists path,
        (is_Some (files w !! path) \/ path ∈ dirs w)
        /\ entry_name folder path = Some name.
Proof.
  unfold folder_entries. rewrite <- list_elem_of_In.
  rewrite merge_sort_Permutation, list_elem_of_omap.
  split; intros [path [H1 H2]]; exists path; (split; [| exact H2]).
  - apply elem_of_elements, elem_of_union in H1.
    destruct H1 as [H1 | H1]; [left; apply elem_of_dom; exact H1 | right; exact H1].
  - apply elem_of_elements, elem_of_union.
    destruct H1 as [H1 | H1]; [left; apply elem_of_dom; exact H1 | right; exact H1].
Qed.

Lemma svg_entry_name_not_empty idea :
  JsString.is_empty (svg_entry_name idea) = false.
Proof.
  unfold svg_entry_name. destruct (sanitizeFilename idea); reflexivity.
Qed.

Lemma Forall2_In_l {A B} (P : A -> B -> Prop) l1 l2 a :
  Forall2 P l1 l2 -> In a l1 -> exists b, In b l2 /\ P a b.
Proof.
  induction 1 as [|x y l1 l2 Hxy _ IH]; intros Hin; [destruct Hin |].
  destruct Hin as [<- | Hin].
  - exists y. split; [left; reflexivity | exact Hxy].
  - destruct (IH Hin) as [b [Hb Pb]]. exists b. split; [right; exact Hb | exact Pb].
Qed.

(** X17. From stage 1 to stage 2: when the output folder is the folder
    stage 2 reads and an iteration accepts an artifact, either writing it
    throws, which ends the iteration where it stands, or the file of that
    iteration is listed among the entries of the folder and stage 2 turns
    it into the record whose description is the idea with letters
    lowercased and other non-digit characters replaced by spaces, and
    whose assistant content is the artifact text: that record is a line
    of every output file stage 2 then writes, and the only line when the
    folder holds nothing else. *)
Theorem accepted_artifact_becomes_record :
  forall cfg cc cs fault i usedPrompts w idea w1 r w2,
    outputFolder cfg = inputFolder ->
    generateNewIdea cfg cc usedPrompts w = (Some idea, w1) ->
    idea <> "" ->
    generateSVGWithGPT4 cfg cs idea w1 = (Some r, w2) ->
    validateSVG r = true ->
    let res := iteration cfg cc cs fault i usedPrompts w in
    let w' := snd (snd res) in
    let line :=
      jsonl_record (JsString.map_chars describe_char idea) (svg r) in
    match fst res with
    | Normal =>
        write_ok fault (svg_path cfg idea) (svg r) w2 = true
        /\ In (svg_entry_name idea) (folder_entries inputFolder w')
        /\ (fault w' (OpRead (svg_path cfg idea)) = false ->
            record_of_file fault w' (svg_entry_name idea) = Some line)
        /\ (forall w'',
              generateJSONL fault w' = (Normal, w'') ->
              exists lines,
                files w'' !! outputFile
                = Some (join (String newline "") lines)
                /\ In line lines)
        /\ (folder_entries inputFolder w' = [svg_entry_name idea] ->
            fault w' (OpReaddir inputFolder) = false ->
            fault w' (OpRead (svg_path cfg idea)) = false ->
            generateJSONL fault w' = writeFileSync fault outputFile line w')
    | Abrupt =>
        write_ok fault (svg_path cfg idea) (svg r) w2 = false /\ w' = w2
    end.
Proof.
  intros cfg cc cs fault i usedPrompts w idea w1 r w2 Hfolder Hidea Hne Hsvg
    Hv. cbv zeta.
  assert (Hpath : svg_path cfg idea
                  = NodePath.join inputFolder (svg_entry_name idea))
    by (unfold svg_path; rewrite Hfolder; reflexivity).
  unfold iteration. rewrite Hidea.
  destruct idea as [|a idea]; [contradiction |].
  cbn [JsString.is_empty]. rewrite Hsvg, Hv. unfold writeFileSync.
  set (idea0 := String a idea) in *.
  destruct (write_ok fault (svg_path cfg idea0) (svg r) w2) eqn:Hok;
    cbn [fst snd]; [| split; reflexivity].
  fold (pause_after cfg i (store (svg_path cfg idea0) (svg r) w2)).
  set (w' := pause_after cfg i (store (svg_path cfg idea0) (svg r) w2)).
  destruct (pause_after_world cfg i (store (svg_path cfg idea0) (svg r) w2))
    as [_ [Hfiles [Hdirs _]]]. fold w' in Hfiles, Hdirs.
  assert (Hfile : files w' !! svg_path cfg idea0 = Some (svg r))
    by (rewrite Hfiles; simpl; apply lookup_insert_eq).
  assert (Hlisted : In (svg_entry_name idea0) (folder_entries inputFolder w')).
  { apply folder_entries_In. exists (svg_path cfg idea0).
    split; [left; rewrite Hfile; eexists; reflexivity |].
    rewrite Hpath. apply entry_name_join;
      [apply svg_entry_name_not_empty | apply svg_entry_name_no_slash]. }
  assert (Hrec : fault w' (OpRead (svg_path cfg idea0)) = false ->
                 record_of_file fault w' (svg_entry_name idea0)
                 = Some (jsonl_record
                           (JsString.map_chars describe_char idea0) (svg r))).
  { intros Hf. unfold record_of_file, readFileSync.
    rewrite <- Hpath, Hf, Hfile, <- description_of_entry_name. reflexivity. }
  assert (Hin : inputFolder ∈ dirs w').
  { rewrite Hdirs. cbn [dirs store]. unfold write_ok, parent_exists in Hok.
    rewrite svg_path_parent, Hfolder in Hok.
    apply andb_true_iff in Hok. destruct Hok as [Hok _].
    apply andb_true_iff in Hok. destruct Hok as [Hok _].
    apply andb_true_iff in Hok. destruct Hok as [_ Hok].
    cbn [JsString.is_empty inputFolder orb] in Hok.
    apply bool_decide_eq_true_1 in Hok. exact Hok. }
  split; [reflexivity |]. split; [exact Hlisted |]. split; [exact Hrec |].
  split.
  - intros w'' Hrun.
    destruct (generateJSONL_Normal fault w' w'' Hrun) as [lines [E ->]].
    pose proof (map_files_Some fault w' _ lines E) as F.
    exists lines. split; [simpl; apply lookup_insert_eq |].
    destruct (Forall2_In_l _ _ _ _ F Hlisted) as [l [Hl [svg0 [Hread ->]]]].
    unfold readFileSync in Hread. rewrite <- Hpath in Hread.
    destruct (fault w' (OpRead (svg_path cfg idea0))); [discriminate |].
    rewrite Hfile in Hread. injection Hread as <-.
    rewrite description_of_entry_name in Hl. exact Hl.
  - intros Hentries Hf1 Hf2. unfold generateJSONL, readdirSync.
    rewrite (bool_decide_eq_true_2 _ Hin), Hf1. cbn [andb negb].
    rewrite Hentries. cbn [map_files]. rewrite (Hrec Hf2). reflexivity.
Qed.

(** ** Time spent waiting *)






(** ** The further statements at work on sample data *)

(** Retries switched off, on a fresh file system: only the folder is made. *)
Lemma run_without_attempts :
  trace (snd (generateAndSaveSVGs no_attempts flaky_completion flaky_stream
                no_fault initial_world))
  = [EvMkdir "svgs"].
Proof.
  destruct (degenerate_run_only_ensures_folder no_attempts flaky_completion
              flaky_stream no_fault initial_world) as [_ [_ [H _]]].
  - right. simpl. lia.
  - exact H.
Defined.

(** A stream that delivers "<svg" and then raises. *)
Lemma accumulate_broken_stream :
  accumulate "" [Yield (text_chunk "<svg"); Raise; Yield (text_chunk "/>")]
  = (None, [Yield (text_chunk "/>")]).
Proof.
  exact (proj1 (proj2 (accumulate_edge_cases "" [text_chunk "<svg"]
                         [Yield (text_chunk "/>")] eq_refl))).
Defined.

(** A truncated artifact is returned after a single call. *)
Lemma truncated_artifact_is_returned :
  generateSVGWithGPT4 config unfinished_stream "a cat" initial_world
  = (Some {| description := "a cat"; svg := "<svg><circle" |},
     call true initial_world).
Proof.
  apply (unfinished_stream_is_accepted config unfinished_stream "a cat"
           initial_world [text_chunk "<svg>"; text_chunk "<circle"]).
  - simpl. lia.
  - reflexivity.
  - reflexivity.
Defined.


(** Two artifacts, one with a line feed inside: two lines, one separator. *)
Lemma two_artifacts_two_lines :
  generateJSONL no_fault two_artifacts = (Normal, two_artifacts_converted)
  /\ exists lines,
       files two_artifacts_converted !! outputFile
         = Some (join (String newline "") lines)
       /\ count_char newline (join (String newline "") lines) = 1%nat.
Proof.
  assert (H : generateJSONL no_fault two_artifacts
              = (Normal, two_artifacts_converted)) by (vm_compute; reflexivity).
  split; [exact H |].
  destruct (jsonl_has_one_line_per_entry no_fault two_artifacts
              two_artifacts_converted H)
    as [lines [Hread [_ [F [_ Hcount]]]]].
  exists lines. split; [exact Hread |].
  rewrite Hcount. vm_compute. reflexivity.
Defined.

(** The first iteration of the sample run, with the output folder in
    place, read back by stage 2. *)
Lemma a_cat_becomes_record :
  record_of_file no_fault
    (snd (snd (iteration config flaky_completion flaky_stream no_fault 0 []
                 folder_ready)))
    "a_cat.svg"
  = Some (jsonl_record "a cat" "<svg width").
Proof.
  pose proof (accepted_artifact_becomes_record config flaky_completion
                flaky_stream no_fault 0 [] folder_ready "A Cat"
                (snd (generateNewIdea config flaky_completion []
                        folder_ready))
                {| description := "A Cat"; svg := "<svg width" |}
                (snd (generateSVGWithGPT4 config flaky_stream "A Cat"
                        (snd (generateNewIdea config flaky_completion []
                                folder_ready))))
                eq_refl eq_refl ltac:(discriminate) eq_refl eq_refl) as H.
  cbv zeta in H.
  change (fst (iteration config flaky_completion flaky_stream no_fault 0 []
                 folder_ready)) with Normal in H.
  destruct H as [_ [_ [H _]]]. exact (H eq_refl).
Defined.

